(** * message_ix.util: [make_df] and [expand_dims]

    A shallow embedding of [src/message_ix/util/__init__.py] and the
    properties of the parameter-table builder and of the dimension
    expander.

    Layout:
    - Python values, ordered dictionaries, exceptions;
    - the part of [pandas.DataFrame] that the module calls;
    - the schema registries and [make_df];
    - the object store, the warning log and [_deprecated_make_df];
    - the scenario interface, the call trace and [expand_dims];
    - the theorems. *)

From Stdlib Require Import ZArith String List Lia.
From stdpp Require Import base option strings list gmap.

Local Open Scope string_scope.
Local Open Scope list_scope.

(** ** Python values *)

(** A cell of a table.  [ANone] is Python's [None], [ANaN] the float
    not-a-number; both are what pandas calls a missing value.  Every
    other number is a payload the module never inspects. *)
Inductive atom : Type :=
| ANone
| ANaN
| ANum (z : Z)
| AStr (s : string).

(** A dictionary key, a column name or a row label. *)
Inductive key : Type :=
| KInt (z : Z)
| KStr (s : string).

#[global] Instance atom_eq_dec : EqDecision atom.
Proof. solve_decision. Defined.

#[global] Instance key_eq_dec : EqDecision key.
Proof. solve_decision. Defined.

(** ** Ordered dictionaries

    A Python [dict] keeps insertion order, and the order of the columns of
    a table follows it, so a dict is an association list.  Writing to a key
    that is present keeps its position. *)
Abbreviation dict K V := (list (K * V)).

Section Dict.
Context {K V : Type} `{EqDecision K}.

Fixpoint dict_get (k : K) (d : dict K V) : option V :=
  match d with
  | [] => None
  | (k', v) :: d' => if decide (k = k') then Some v else dict_get k d'
  end.

Fixpoint dict_set (k : K) (v : V) (d : dict K V) : dict K V :=
  match d with
  | [] => [(k, v)]
  | (k', v') :: d' =>
      if decide (k = k') then (k', v) :: d' else (k', v') :: dict_set k v d'
  end.

Definition dict_keys (d : dict K V) : list K := d.*1.

Definition dict_values (d : dict K V) : list V := d.*2.

Definition dict_mem (k : K) (d : dict K V) : bool :=
  bool_decide (is_Some (dict_get k d)).

(** [d.update(items)]: the items are written in order. *)
Definition dict_update (d : dict K V) (items : list (K * V)) : dict K V :=
  fold_left (fun acc kv => dict_set kv.1 kv.2 acc) items d.

(** [dict(items)]. *)
Definition dict_of_items (items : list (K * V)) : dict K V :=
  dict_update [] items.
End Dict.

(** What a caller may bind to a column: one scalar, a sequence of cells,
    or a mapping from row labels to cells. *)
Inductive value : Type :=
| VScalar (a : atom)
| VSeq (l : list atom)
| VDict (d : dict key atom).

(** [pandas.api.types.is_scalar]. *)
Definition is_scalar (v : value) : bool :=
  match v with
  | VScalar _ => true
  | VSeq _ | VDict _ => false
  end.

(** ** Exceptions *)

(** The text of an exception, kept structured where the source formats
    it from its arguments. *)
Inductive message : Type :=
| Literal (s : string)
| NotAParameter (name : string)
    (* f"{repr(name)} is not a MESSAGE or MACRO parameter" *)
| WrongIxType (name ix_type : string)
    (* f"{repr(name)} is {info['ix_type']}, not par" *)
| AllScalarNoIndex
    (* "If using all scalar values, you must pass an index" *)
| ArraysLength
    (* "All arrays must be of the same length" *)
| MixingDicts
    (* "Mixing dicts with non-Series may lead to ambiguous ordering." *)
| ValuesLength (n m : nat)
    (* f"Length of values ({n}) does not match length of index ({m})" *)
| MultipleValuesKeyword (k : key)
    (* "... got multiple values for keyword argument '{k}'" *)
| KeywordsMustBeStrings
    (* "keywords must be strings" *)
| MultipleValuesArgument (p : string)
    (* "... got multiple values for argument '{p}'" *).

Inductive exn : Type :=
| ValueError (m : message)
| KeyError (k : string)
| TypeError (m : message)
| AssertionError (m : string)
| InvalidReference
    (* not a Python exception: a reference that denotes no object, or an
       object of another kind than the code has just made; never raised
       from a reference to an object of the store *)
| StoreError (code : Z)
    (* whatever the scenario back end raises *).

Inductive result (A : Type) : Type :=
| Ok (a : A)
| Raise (e : exn).
Arguments Ok {A} a.
Arguments Raise {A} e.

#[global] Instance result_ret : MRet result := fun _ a => Ok a.
#[global] Instance result_bind : MBind result := fun _ _ f r =>
  match r with
  | Ok a => f a
  | Raise e => Raise e
  end.

#[global] Instance result_fmap : FMap result := fun _ _ f r =>
  match r with
  | Ok a => Ok (f a)
  | Raise e => Raise e
  end.

#[global] Instance message_eq_dec : EqDecision message.
Proof. solve_decision. Defined.

#[global] Instance exn_eq_dec : EqDecision exn.
Proof. solve_decision. Defined.

(** ** The table constructor

    [pandas.DataFrame(data=<dict>, index=<list or nothing>)], as far as
    [make_df] and [_deprecated_make_df] use it: a row index and one column
    of cells per key of [data], in the order of the keys.  pandas is a
    library the module imports; what follows is its construction of a
    frame from a dict ([_extract_index], then one array per value).  The
    inference of column types is left out: cells are kept as they were
    passed. *)
Record DataFrame : Type := mkDataFrame {
  df_index : list key;
  df_data : dict key (list atom)
}.

Definition df_columns (df : DataFrame) : list key := dict_keys (df_data df).

Definition df_nrows (df : DataFrame) : nat := length (df_index df).

(** [range(n)] as row labels: the default index. *)
Definition default_index (n : nat) : list key :=
  (fun i : nat => KInt (Z.of_nat i)) <$> seq 0 n.

Definition raw_lengths (vals : list value) : list nat :=
  omap (fun v => match v with VSeq l => Some (length l) | _ => None end) vals.

Definition dict_indexes (vals : list value) : list (list key) :=
  omap (fun v => match v with VDict d => Some (dict_keys d) | _ => None end) vals.

(** [union_indexes(indexes, sort=False)]: every label once, in the order
    of its first appearance.  This is what pandas 2 does; pandas 1 sorts
    the labels when they come from a single dict, which gives the same
    index whenever the labels are already in increasing order, as those
    of the default index are. *)
Definition union_indexes (indexes : list (list key)) : list key :=
  fold_left (fun acc k => if bool_decide (k ∈ acc) then acc else acc ++ [k])
            (concat indexes) [].

Definition all_equal (ns : list nat) : bool :=
  match ns with
  | [] => true
  | n :: ns' => forallb (Nat.eqb n) ns'
  end.

(** [pandas.core.internals.construction._extract_index], for scalars,
    lists and dicts. *)
Definition extract_index (vals : list value) : result (list key) :=
  match vals with
  | [] => Ok []
  | _ =>
      let lengths := raw_lengths vals in
      let indexes := dict_indexes vals in
      match lengths, indexes with
      | [], [] => Raise (ValueError AllScalarNoIndex)
      | [], _ :: _ => Ok (union_indexes indexes)
      | n :: _, _ =>
          if negb (all_equal lengths) then Raise (ValueError ArraysLength)
          else match indexes with
               | _ :: _ => Raise (ValueError MixingDicts)
               | [] => Ok (default_index n)
               end
      end
  end.

(** One column brought to the row index: a scalar is repeated, a list must
    have the length of the index, a dict is read label by label with NaN
    for a label it lacks. *)
Definition homogenize (index : list key) (v : value) : result (list atom) :=
  match v with
  | VScalar a => Ok (replicate (length index) a)
  | VSeq l =>
      if decide (length l = length index) then Ok l
      else Raise (ValueError (ValuesLength (length l) (length index)))
  | VDict d => Ok ((fun lbl => default ANaN (dict_get lbl d)) <$> index)
  end.

Fixpoint homogenize_all (index : list key) (data : dict key value)
  : result (dict key (list atom)) :=
  match data with
  | [] => Ok []
  | (k, v) :: data' =>
      col ← homogenize index v;
      cols ← homogenize_all index data';
      Ok ((k, col) :: cols)
  end.

Definition pd_DataFrame (data : dict key value) (index : option (list key))
  : result DataFrame :=
  idx ← match index with
        | Some i => Ok i
        | None => extract_index (dict_values data)
        end;
  cols ← homogenize_all idx data;
  Ok (mkDataFrame idx cols).

(** [df.isna().any(axis=None)]. *)
Definition isna (a : atom) : bool :=
  match a with
  | ANone | ANaN => true
  | ANum _ | AStr _ => false
  end.

Definition df_isna_any (df : DataFrame) : bool :=
  existsb (fun col => existsb isna col.2) (df_data df).

(** ** Schema registries *)

(** An entry of [MESSAGE_ITEMS] or [MACRO_ITEMS]: a dict with the key
    "ix_type" and, optionally, "idx_sets" and "idx_names". *)
Record item_info : Type := mkItem {
  ix_type : string;
  idx_sets : option (list string);
  idx_names : option (list string)
}.

Section Registries.
(** The two registries are defined in [message_ix.models] and
    [message_ix.macro]; here they are parameters. *)
Variables MESSAGE_ITEMS MACRO_ITEMS : gmap string item_info.

(** [ChainMap(MESSAGE_ITEMS, MACRO_ITEMS)[name]]. *)
Definition chain_items (name : string) : option item_info :=
  match MESSAGE_ITEMS !! name with
  | Some info => Some info
  | None => MACRO_ITEMS !! name
  end.

(** [ChainMap(data, defaultdict(lambda: None))[column]]. *)
Definition chain_data (data : dict string value) (column : string) : value :=
  default (VScalar ANone) (dict_get column data).

(** [list(info.get("idx_names", info["idx_sets"])) + ["value", "unit"]];
    the default [info["idx_sets"]] is evaluated whether or not it is
    used. *)
Definition make_df_columns (info : item_info) : result (list string) :=
  sets ← match idx_sets info with
         | Some s => Ok s
         | None => Raise (KeyError "idx_sets")
         end;
  Ok (default sets (idx_names info) ++ ["value"; "unit"]).

(** The loop over the columns: the pair is [(args["data"], all_scalar)]. *)
Definition make_df_step (data : dict string value)
    (st : dict key value * bool) (column : string) : dict key value * bool :=
  (dict_set (KStr column) (chain_data data column) st.1,
   st.2 && is_scalar (chain_data data column)).

Definition make_df_loop (data : dict string value) (columns : list string)
  : dict key value * bool :=
  fold_left (make_df_step data) columns ([], true).

(** [make_df] from the look-up of the item onwards. *)
Definition make_df_info (name : string) (info : item_info)
    (data : dict string value) : result DataFrame :=
  if negb (bool_decide (ix_type info = "par")) then
    Raise (ValueError (WrongIxType name (ix_type info)))
  else
    columns ← make_df_columns info;
    let '(args_data, all_scalar) := make_df_loop data columns in
    pd_DataFrame args_data (if all_scalar then Some [KInt 0%Z] else None).

(** [make_df(name, **data)] for a string [name]. *)
Definition make_df_str (name : string) (data : dict string value)
  : result DataFrame :=
  match chain_items name with
  | None => Raise (ValueError (NotAParameter name))
  | Some info => make_df_info name info data
  end.
End Registries.

(** ** Objects, warnings and the call trace *)

Record Series : Type := mkSeries {
  s_index : list key;
  s_values : list atom
}.

(** What [make_df] accepts in place of a name: a [Mapping], a
    [pandas.Series] or a [pandas.DataFrame].  These are mutable objects the
    caller keeps a reference to, so they live in an object store and are
    passed by reference. *)
Inductive pyobj : Type :=
| ODict (d : dict key value)
| OSeries (s : Series)
| ODataFrame (df : DataFrame).

Definition ref : Type := nat.

Inductive name_arg : Type :=
| NameStr (s : string)
| NameObj (r : ref).

Inductive warning : Type :=
| DeprecationWarning (text : string)
| UserWarning (text : string).

(** The calls made on the scenario, in the order they are issued.
    [ExitTransact] is the end of the [with] block; it carries the exception
    that left the block, if one did. *)
Inductive event : Type :=
| CallPar (name : string)
| CallTransact (msg : string)
| CallRemovePar (name : string)
| CallInitializeItems (name : string) (info : item_info)
| CallAddPar (name : string) (df : DataFrame)
| ExitTransact (e : option exn).

(** The state a call runs in: the object store (a new object gets the next
    free reference), the warnings issued so far, the calls issued so far
    and the state of the scenario, of a type [S] the back end chooses. *)
Record World (S : Type) : Type := mkWorld {
  objects : list pyobj;
  warnings : list warning;
  trace : list event;
  scenario : S
}.
Arguments mkWorld {S} _ _ _ _.
Arguments objects {S} _.
Arguments warnings {S} _.
Arguments trace {S} _.
Arguments scenario {S} _.

(** A computation that reads and writes the world and returns or raises. *)
Definition M (S A : Type) : Type := World S -> World S * result A.

#[global] Instance M_ret {S} : MRet (M S) := fun _ a w => (w, Ok a).
#[global] Instance M_bind {S} : MBind (M S) := fun _ _ f m w =>
  match m w with
  | (w', Ok a) => f a w'
  | (w', Raise e) => (w', Raise e)
  end.

Section Effects.
Context {S : Type}.

Definition raise {A} (e : exn) : M S A := fun w => (w, Raise e).

Definition lift {A} (r : result A) : M S A := fun w => (w, r).

(** Runs [m] and hands its outcome over instead of raising. *)
Definition catch {A} (m : M S A) : M S (result A) := fun w =>
  let '(w', r) := m w in (w', Ok r).

(** [warnings.warn(...)], under filters that do not turn a warning into
    an exception. *)
Definition warn (x : warning) : M S unit := fun w =>
  (mkWorld (objects w) (warnings w ++ [x]) (trace w) (scenario w), Ok tt).

Definition log (ev : event) : M S unit := fun w =>
  (mkWorld (objects w) (warnings w) (trace w ++ [ev]) (scenario w), Ok tt).

Definition alloc (o : pyobj) : M S ref := fun w =>
  (mkWorld (objects w ++ [o]) (warnings w) (trace w) (scenario w),
   Ok (length (objects w))).

Definition deref (r : ref) : M S pyobj := fun w =>
  match objects w !! r with
  | Some o => (w, Ok o)
  | None => (w, Raise InvalidReference)
  end.

Definition assign (r : ref) (o : pyobj) : M S unit := fun w =>
  (mkWorld (<[r := o]> (objects w)) (warnings w) (trace w) (scenario w),
   Ok tt).

(** A method of the scenario, applied to the scenario's state. *)
Definition on_scenario {A} (op : S -> S * result A) : M S A := fun w =>
  let '(s', r) := op (scenario w) in
  (mkWorld (objects w) (warnings w) (trace w) s', r).

(** A call on the scenario: recorded, then made. *)
Definition call {A} (ev : event) (op : S -> S * result A) : M S A :=
  log ev;; on_scenario op.

(** [assert cond, text], with assertions enabled. *)
Definition py_assert (cond : bool) (text : string) : M S unit :=
  if cond then mret tt else raise (AssertionError text).
End Effects.

(** ** The deprecated signature *)

(** [Series.to_dict()]. *)
Definition Series_to_dict (s : Series) : dict key value :=
  dict_of_items (zip (s_index s) (VScalar <$> s_values s)).

(** [DataFrame.to_dict()]: column name to (row label to cell). *)
Definition DataFrame_to_dict_value (df : DataFrame) : dict key value :=
  dict_of_items
    ((fun col => (col.1, VDict (dict_of_items (zip (df_index df) col.2))))
       <$> df_data df).

Definition deprecation_text : string :=
  "make_df() with a mapping or pandas object. Use make_df(), " +:+
  "DataFrame.from_dict(), and/or DataFrame.assign().".

Definition columns_not_unique_text : string :=
  "DataFrame columns are not unique, some columns will be omitted.".

Section Legacy.
Context {S : Type}.

(** pandas warns when the frame has two columns of one name. *)
Definition DataFrame_to_dict (df : DataFrame) : M S (dict key value) :=
  (if bool_decide (NoDup (df_columns df)) then mret tt
   else warn (UserWarning columns_not_unique_text));;
  mret (DataFrame_to_dict_value df).

(** [copy.deepcopy(base)]: a new object with the same contents.  What an
    object holds are values without identity, so the copy shares nothing
    with the original. *)
Definition deepcopy (r : ref) : M S ref :=
  o ← deref r; alloc o.

(** [base.update] with the keyword arguments, on the dict that [r]
    refers to. *)
Definition update (r : ref) (kwargs : dict string value) : M S unit :=
  o ← deref r;
  match o with
  | ODict d => assign r (ODict (dict_update d (prod_map KStr id <$> kwargs)))
  | _ => raise InvalidReference
  end.

Definition _deprecated_make_df (base : ref) (kwargs : dict string value)
  : M S DataFrame :=
  warn (DeprecationWarning deprecation_text);;
  base ← deepcopy base;
  o ← deref base;
  base ← match o with
         | ODict _ => mret base
         | OSeries s => alloc (ODict (Series_to_dict s))
         | ODataFrame df => d ← DataFrame_to_dict df; alloc (ODict d)
         end;
  update base kwargs;;
  o ← deref base;
  match o with
  | ODict d => lift (pd_DataFrame d None)
  | _ => raise InvalidReference
  end.
End Legacy.

Section MakeDf.
Context {S : Type}.
Variables MESSAGE_ITEMS MACRO_ITEMS : gmap string item_info.

(** [make_df(name, **data)].  Every object of the store is a [Mapping], a
    [Series] or a [DataFrame], so a reference takes the deprecated path:
    the call [_deprecated_make_df(name, **data)], in which a keyword
    called "base" meets the parameter of that name and the call raises
    before the function is entered. *)
Definition make_df (name : name_arg) (data : dict string value)
  : M S DataFrame :=
  match name with
  | NameObj base =>
      if dict_mem "base" data then
        raise (TypeError (MultipleValuesArgument "base"))
      else _deprecated_make_df base data
  | NameStr name => lift (make_df_str MESSAGE_ITEMS MACRO_ITEMS name data)
  end.
End MakeDf.

(** ** The scenario *)

(** The methods of [message_ix.core.Scenario] (and
    [MESSAGE.initialize_items]) that [expand_dims] calls.  Each acts on the
    scenario's state and returns or raises.  [transact] is the context
    manager of the [with] statement: [transact_enter] is the call together
    with [__enter__], [transact_exit] is [__exit__], which is told the
    exception that left the block and answers whether to swallow it. *)
Class Scenario (S : Type) : Type := {
  par : string -> S -> S * result DataFrame;
  remove_par : string -> S -> S * result unit;
  initialize_items : string -> item_info -> S -> S * result unit;
  add_par : string -> DataFrame -> S -> S * result unit;
  transact_enter : string -> S -> S * result unit;
  transact_exit : option exn -> S -> S * result bool
}.

(** The events that change the stored data. *)
Definition is_mutation (ev : event) : bool :=
  match ev with
  | CallRemovePar _ | CallInitializeItems _ _ | CallAddPar _ _ => true
  | CallPar _ | CallTransact _ | ExitTransact _ => false
  end.

(** ** Keyword arguments of a call *)

(** [f( **a, **b)]: the mappings are merged from left to right, and a key
    met twice is an error. *)
Fixpoint merge_keywords (acc : dict key value) (items : list (key * value))
  : result (dict key value) :=
  match items with
  | [] => Ok acc
  | (k, v) :: items' =>
      if dict_mem k acc then Raise (TypeError (MultipleValuesKeyword k))
      else merge_keywords (acc ++ [(k, v)]) items'
  end.

(** Keywords are strings. *)
Fixpoint string_keywords (kw : dict key value) : result (dict string value) :=
  match kw with
  | [] => Ok []
  | (KStr k, v) :: kw' => rest ← string_keywords kw'; Ok ((k, v) :: rest)
  | (KInt _, _) :: _ => Raise (TypeError KeywordsMustBeStrings)
  end.

(** A data frame unpacked as keyword arguments: one keyword per column,
    bound to the column.  A column is bound here as the sequence of its
    cells: this is how the table constructor treats columns that share
    the default row index, as long as no other input is a mapping from
    row labels.  Columns with row labels of their own, and their
    alignment with such mappings, are outside this model. *)
Definition DataFrame_items (df : DataFrame) : list (key * value) :=
  (fun col => (col.1, VSeq col.2)) <$> df_data df.

(** The keyword arguments of [make_df(name, **existing, **data)]: merged,
    checked to be strings, and none may be called like the positional
    parameter [name]. *)
Definition make_df_keywords (existing : DataFrame) (data : dict string value)
  : result (dict string value) :=
  merged ← merge_keywords []
             (DataFrame_items existing ++ (prod_map KStr id <$> data));
  kw ← string_keywords merged;
  if dict_mem "name" kw then Raise (TypeError (MultipleValuesArgument "name"))
  else Ok kw.

(** ** [expand_dims] *)

Definition incomplete_text : string := "Expanded data are incomplete".

(** [f"expand_dims({name}, …)"] *)
Definition transact_text (name : string) : string :=
  "expand_dims(" +:+ name +:+ ", …)".

Section ExpandDims.
Context {S : Type} `{Scenario S}.
Variables MESSAGE_ITEMS MACRO_ITEMS : gmap string item_info.

(** [with scenario.transact(msg): body]. *)
Definition with_transact (msg : string) (body : M S unit) : M S unit :=
  call (CallTransact msg) (transact_enter msg);;
  r ← catch body;
  match r with
  | Ok _ =>
      call (ExitTransact None) (transact_exit None);; mret tt
  | Raise e =>
      swallow ← call (ExitTransact (Some e)) (transact_exit (Some e));
      if swallow : bool then mret tt else raise e
  end.

(** [MESSAGE_ITEMS[name]]. *)
Definition MESSAGE_ITEMS_getitem (name : string) : M S item_info :=
  match MESSAGE_ITEMS !! name with
  | Some info => mret info
  | None => raise (KeyError name)
  end.

Definition expand_dims_body (name : string) (new_data : DataFrame)
  : M S unit :=
  call (CallRemovePar name) (remove_par name);;
  info ← MESSAGE_ITEMS_getitem name;
  call (CallInitializeItems name info) (initialize_items name info);;
  call (CallAddPar name new_data) (add_par name new_data).

(** [expand_dims(scenario, name, **data)]. *)
Definition expand_dims (name : string) (data : dict string value)
  : M S unit :=
  existing ← call (CallPar name) (par name);
  kw ← lift (make_df_keywords existing data);
  new_data ← make_df MESSAGE_ITEMS MACRO_ITEMS (NameStr name) kw;
  py_assert (negb (df_isna_any new_data)) incomplete_text;;
  with_transact (transact_text name) (expand_dims_body name new_data).
End ExpandDims.

(** ** A scenario held in memory

    A back end for running [expand_dims]: the stored tables and the
    declared items, by parameter name.  Reading a parameter that has no
    table raises; the transaction methods do nothing. *)
Record MemScenario : Type := mkMem {
  mem_data : gmap string DataFrame;
  mem_items : gmap string item_info
}.

#[global] Instance MemScenario_Scenario : Scenario MemScenario := {
  par name s :=
    (s, match mem_data s !! name with
        | Some df => Ok df
        | None => Raise (StoreError 1)
        end);
  remove_par name s :=
    (mkMem (delete name (mem_data s)) (delete name (mem_items s)), Ok tt);
  initialize_items name info s :=
    (mkMem (mem_data s) (<[name := info]> (mem_items s)), Ok tt);
  add_par name df s :=
    (mkMem (<[name := df]> (mem_data s)) (mem_items s), Ok tt);
  transact_enter _ s := (s, Ok tt);
  transact_exit _ s := (s, Ok false)
}.

(** ** Vocabulary of the statements *)

(** A value that is a scalar or a sequence of the given length. *)
Definition fits (n : nat) (v : value) : Prop :=
  match v with
  | VScalar _ => True
  | VSeq l => length l = n
  | VDict _ => False
  end.

(** The column that the constructor makes of such a value. *)
Definition broadcast (n : nat) (v : value) : list atom :=
  match v with
  | VScalar a => replicate n a
  | VSeq l => l
  | VDict _ => []
  end.

(** The keyword and the value that the loop of [make_df] stores for a
    column. *)
Definition column_item (data : dict string value) (c : string) : key * value :=
  (KStr c, chain_data data c).

(** The named inputs whose key is one of the given columns. *)
Definition restrict (columns : list string) (data : dict string value)
  : dict string value :=
  filter (fun kv => kv.1 ∈ columns) data.

(** The mapping that [_deprecated_make_df] starts from. *)
Definition as_mapping (o : pyobj) : dict key value :=
  match o with
  | ODict d => d
  | OSeries s => Series_to_dict s
  | ODataFrame df => DataFrame_to_dict_value df
  end.

(** The world after further calls on the scenario were issued and left it
    in the state [s]; objects and warnings are as before. *)
Definition issued {S} (w : World S) (calls : list event) (s : S) : World S :=
  mkWorld (objects w) (warnings w) (trace w ++ calls) s.

(** How a [with] block ends, given how its body ended and what [__exit__]
    answered. *)
Definition block_outcome (body : option exn) (exit : result bool)
  : result unit :=
  match exit, body with
  | Raise e, _ => Raise e
  | Ok _, None => Ok tt
  | Ok true, Some _ => Ok tt
  | Ok false, Some e => Raise e
  end.

(** ** Sample registries and inputs

    Entries in the shape of the real registries, for running the
    definitions: "demand" is the parameter of the examples in the
    docstring of [make_df]. *)
Definition demand_info : item_info :=
  mkItem "par" (Some ["node"; "commodity"; "level"; "year"; "time"]) None.

Definition input_info : item_info :=
  mkItem "par" (Some ["node"; "technology"; "node"])
         (Some ["node_loc"; "technology"; "node_origin"]).

Definition grow_info : item_info := mkItem "par" (Some ["node"; "year"]) None.

Definition sample_MESSAGE_ITEMS : gmap string item_info :=
  <["demand" := demand_info]>
    (<["input" := input_info]> (<["commodity" := mkItem "set" None None]> ∅)).

Definition sample_MACRO_ITEMS : gmap string item_info :=
  <["grow" := grow_info]> (<["demand" := mkItem "var" None None]> ∅).

(** A world without a scenario. *)
Definition empty_world : World unit := mkWorld [] [] [] tt.

(** [node=["foo", "bar"], commodity="baz", value=[1, 3]] *)
Definition sample_data : dict string value :=
  [("node", VSeq [AStr "foo"; AStr "bar"]);
   ("commodity", VScalar (AStr "baz"));
   ("value", VSeq [ANum 1; ANum 3])].

Definition sample_table : DataFrame :=
  mkDataFrame [KInt 0; KInt 1]
    [(KStr "node", [AStr "foo"; AStr "bar"]);
     (KStr "commodity", [AStr "baz"; AStr "baz"]);
     (KStr "level", [ANone; ANone]);
     (KStr "year", [ANone; ANone]);
     (KStr "time", [ANone; ANone]);
     (KStr "value", [ANum 1; ANum 3]);
     (KStr "unit", [ANone; ANone])].


(** Two sequences of different lengths, one under a key that is no column
    of "demand". *)
Definition uneven_data : dict string value :=
  [("node", VSeq [AStr "foo"; AStr "bar"]);
   ("extra", VSeq [ANum 1; ANum 2; ANum 3])].

(** Two columns of "demand" as sequences of different lengths. *)
Definition uneven_columns_data : dict string value :=
  [("node", VSeq [AStr "foo"; AStr "bar"]);
   ("value", VSeq [ANum 1; ANum 2; ANum 3])].

(** [base = {"year": [2020, 2021, 2022]}] held by the caller, and the
    keyword arguments [value=1, unit="y"] of the docstring, with an
    override of "year" added. *)
Definition legacy_world : World unit :=
  mkWorld [ODict [(KStr "year", VSeq [ANum 2020; ANum 2021; ANum 2022])]]
          [] [] tt.

Definition legacy_kwargs : dict string value :=
  [("value", VScalar (ANum 1)); ("unit", VScalar (AStr "y"));
   ("year", VSeq [ANum 1; ANum 2; ANum 3])].

(** A stored table that lacks the dimension "year", as the table of
    "demand" and as the table of "grow", a parameter of the second
    registry only. *)
Definition stored_table : DataFrame :=
  mkDataFrame [KInt 0; KInt 1]
    [(KStr "node", [AStr "A"; AStr "B"]);
     (KStr "value", [ANum 1; ANum 2]);
     (KStr "unit", [AStr "u"; AStr "u"])].

Definition stored_world : World MemScenario :=
  mkWorld [] [] []
    (mkMem (<["demand" := stored_table]> (<["grow" := stored_table]> ∅)) ∅).

Definition year_data : dict string value := [("year", VScalar (ANum 2020))].

Definition demand_data : dict string value :=
  [("commodity", VScalar (AStr "light"));
   ("level", VScalar (AStr "useful"));
   ("year", VSeq [ANum 680; ANum 700]);
   ("time", VScalar (AStr "year"))].

Definition grow_table : DataFrame :=
  mkDataFrame [KInt 0; KInt 1]
    [(KStr "node", [AStr "A"; AStr "B"]);
     (KStr "year", [ANum 2020; ANum 2020]);
     (KStr "value", [ANum 1; ANum 2]);
     (KStr "unit", [AStr "u"; AStr "u"])].

Definition demand_table : DataFrame :=
  mkDataFrame [KInt 0; KInt 1]
    [(KStr "node", [AStr "A"; AStr "B"]);
     (KStr "commodity", [AStr "light"; AStr "light"]);
     (KStr "level", [AStr "useful"; AStr "useful"]);
     (KStr "year", [ANum 680; ANum 700]);
     (KStr "time", [AStr "year"; AStr "year"]);
     (KStr "value", [ANum 1; ANum 2]);
     (KStr "unit", [AStr "u"; AStr "u"])].

(** The keyword arguments that [expand_dims] forms from the stored table
    and [demand_data]. *)
Definition demand_keywords : dict string value :=
  [("node", VSeq [AStr "A"; AStr "B"]);
   ("value", VSeq [ANum 1; ANum 2]);
   ("unit", VSeq [AStr "u"; AStr "u"])] ++ demand_data.

(** The states of the stored scenario in the course of
    [expand_dims("demand", ...)]. *)
Definition demand_removed : MemScenario :=
  (remove_par "demand" (scenario stored_world)).1.

Definition demand_initialized : MemScenario :=
  (initialize_items "demand" demand_info demand_removed).1.

Definition demand_added : MemScenario :=
  (add_par "demand" demand_table demand_initialized).1.

(** The keyword arguments formed from the stored table and [year_data]. *)
Definition grow_keywords : dict string value :=
  [("node", VSeq [AStr "A"; AStr "B"]);
   ("value", VSeq [ANum 1; ANum 2]);
   ("unit", VSeq [AStr "u"; AStr "u"])] ++ year_data.

(** The calls of one [with] block of [expand_dims], from the opening of
    the transaction on: the opening alone when it raises; otherwise the
    removal, the initialization and the addition of the table [new_data],
    up to the first that raises, and the exit, which is told the exception
    when there was one.  The initialization is with the item of the first
    registry, and is not reached when the registry lacks the name. *)
Inductive scope_events (MESSAGE_ITEMS : gmap string item_info)
    (name : string) (new_data : DataFrame) : list event -> Prop :=
| scope_not_entered :
    scope_events MESSAGE_ITEMS name new_data
      [CallTransact (transact_text name)]
| scope_remove_only e :
    scope_events MESSAGE_ITEMS name new_data
      [CallTransact (transact_text name); CallRemovePar name;
       ExitTransact (Some e)]
| scope_initialize_raised info e :
    MESSAGE_ITEMS !! name = Some info ->
    scope_events MESSAGE_ITEMS name new_data
      [CallTransact (transact_text name); CallRemovePar name;
       CallInitializeItems name info; ExitTransact (Some e)]
| scope_all info e :
    MESSAGE_ITEMS !! name = Some info ->
    scope_events MESSAGE_ITEMS name new_data
      [CallTransact (transact_text name); CallRemovePar name;
       CallInitializeItems name info; CallAddPar name new_data;
       ExitTransact e].

(** A back end that refuses every table: [add_par] raises. *)
Record RefusingScenario : Type := mkRefusing { refusing_mem : MemScenario }.

#[global] Instance RefusingScenario_Scenario : Scenario RefusingScenario := {
  par name s :=
    let '(m, r) := par name (refusing_mem s) in (mkRefusing m, r);
  remove_par name s :=
    let '(m, r) := remove_par name (refusing_mem s) in (mkRefusing m, r);
  initialize_items name info s :=
    let '(m, r) := initialize_items name info (refusing_mem s) in
    (mkRefusing m, r);
  add_par _ _ s := (s, Raise (StoreError 2));
  transact_enter _ s := (s, Ok tt);
  transact_exit _ s := (s, Ok false)
}.

Definition refusing_world : World RefusingScenario :=
  mkWorld [] [] [] (mkRefusing (scenario stored_world)).

(** A table without rows, and the world that stores it for "demand". *)
Definition empty_table : DataFrame :=
  mkDataFrame [] [(KStr "node", []); (KStr "value", []); (KStr "unit", [])].

Definition empty_stored_world : World MemScenario :=
  mkWorld [] [] [] (mkMem (<["demand" := empty_table]> ∅) ∅).

(** The columns of a frame, each as the mapping from the row labels to
    its cells. *)
Definition labelled_columns (index : list key) (cols : dict key (list atom))
  : dict key value :=
  (fun col => (col.1, VDict (zip index col.2))) <$> cols.

(** An item of kind "par" with index names and no index sets. *)
Definition no_sets_ITEMS : gmap string item_info :=
  <["loose" := mkItem "par" None (Some ["node"])]> ∅.

(** [sample_data] with its keywords in another order. *)
Definition sample_data_reordered : dict string value :=
  [("value", VSeq [ANum 1; ANum 3]);
   ("node", VSeq [AStr "foo"; AStr "bar"]);
   ("commodity", VScalar (AStr "baz"))].

(** A scenario that stores a table under the name of a set and under a
    name that no registry has. *)
Definition misnamed_world : World MemScenario :=
  mkWorld [] [] []
    (mkMem (<["commodity" := stored_table]> (<["bogus" := stored_table]> ∅))
           ∅).

(** [base = {"foo": "bar"}], and a data frame, held by the caller. *)
Definition scalar_base_world : World unit :=
  mkWorld [ODict [(KStr "foo", VScalar (AStr "bar"))]] [] [] tt.

Definition frame_base_world : World unit :=
  mkWorld [ODataFrame stored_table] [] [] tt.

(** The table of [make_df(base, **legacy_kwargs)]. *)
Definition legacy_table : DataFrame :=
  mkDataFrame [KInt 0; KInt 1; KInt 2]
    [(KStr "year", [ANum 1; ANum 2; ANum 3]);
     (KStr "value", [ANum 1; ANum 1; ANum 1]);
     (KStr "unit", [AStr "y"; AStr "y"; AStr "y"])].

(** A keyword called like the parameter of [_deprecated_make_df]. *)
Definition base_kwargs : dict string value := [("base", VScalar (ANum 1))].

(** * Properties *)

(** ** The definitions at work *)

(** The first example of the docstring of [make_df]. *)
Example make_df_demand :
  make_df sample_MESSAGE_ITEMS sample_MACRO_ITEMS (NameStr "demand")
    sample_data empty_world = (empty_world, Ok sample_table).
Proof. vm_compute. reflexivity. Qed.

(** Index names, where an item has them, name the columns. *)
Example make_df_input :
  df_columns <$> make_df_str sample_MESSAGE_ITEMS sample_MACRO_ITEMS "input" []
    = Ok [KStr "node_loc"; KStr "technology"; KStr "node_origin";
          KStr "value"; KStr "unit"].
Proof. vm_compute. reflexivity. Qed.

(** The deprecated signature: [make_df(base, value=1, unit="y")] with
    [base = {"year": [2020, 2021, 2022]}]. *)
Example make_df_base :
  (make_df sample_MESSAGE_ITEMS sample_MACRO_ITEMS (NameObj 0)
     [("value", VScalar (ANum 1)); ("unit", VScalar (AStr "y"))]
     legacy_world).2
    = Ok (mkDataFrame [KInt 0; KInt 1; KInt 2]
            [(KStr "year", [ANum 2020; ANum 2021; ANum 2022]);
             (KStr "value", [ANum 1; ANum 1; ANum 1]);
             (KStr "unit", [AStr "y"; AStr "y"; AStr "y"])]).
Proof. vm_compute. reflexivity. Qed.

(** The store shows a write through a reference: [base.update] applied to
    the caller's own mapping, without the copy, changes it. *)
Example update_in_place :
  objects (update 0 legacy_kwargs legacy_world).1 !! 0
    = Some (ODict [(KStr "year", VSeq [ANum 1; ANum 2; ANum 3]);
                   (KStr "value", VScalar (ANum 1));
                   (KStr "unit", VScalar (AStr "y"))]).
Proof. vm_compute. reflexivity. Qed.

(** [expand_dims] on the stored table of "demand": the new table replaces
    the stored one. *)
Example expand_dims_demand :
  mem_data (scenario (expand_dims sample_MESSAGE_ITEMS sample_MACRO_ITEMS
                        "demand" demand_data stored_world).1) !! "demand"
    = Some demand_table.
Proof. vm_compute. reflexivity. Qed.

(** ** Dictionaries *)

Section DictFacts.
Context {K V : Type} `{EqDecision K}.
Implicit Types (k : K) (v : V) (d items : dict K V).

Lemma dict_get_set_eq k v d : dict_get k (dict_set k v d) = Some v.
Proof.
  induction d as [|[k' v'] d IH]; simpl.
  - by rewrite decide_True.
  - destruct (decide (k = k')) as [->|Hne]; simpl.
    + by rewrite decide_True.
    + by rewrite decide_False.
Qed.

Lemma dict_get_set_ne k k' v d :
  k ≠ k' → dict_get k' (dict_set k v d) = dict_get k' d.
Proof.
  intros Hne. induction d as [|[k0 v0] d IH]; simpl.
  - by rewrite decide_False.
  - destruct (decide (k = k0)) as [->|Hne0]; simpl.
    + by rewrite !decide_False.
    + destruct (decide (k' = k0)); [done | apply IH].
Qed.

Lemma dict_get_None k d : dict_get k d = None ↔ k ∉ dict_keys d.
Proof.
  unfold dict_keys. induction d as [|[k' v'] d IH]; simpl.
  - split; [intros _; apply not_elem_of_nil | done].
  - rewrite not_elem_of_cons. destruct (decide (k = k')) as [->|Hne].
    + split; [done | intros [? _]; done].
    + rewrite IH. tauto.
Qed.

Lemma dict_get_Some_elem k v d : dict_get k d = Some v → (k, v) ∈ d.
Proof.
  induction d as [|[k' v'] d IH]; simpl; [done |].
  destruct (decide (k = k')) as [->|Hne].
  - intros [= ->]. apply list_elem_of_here.
  - intros Hget. apply list_elem_of_further. by apply IH.
Qed.

Lemma dict_get_app k d1 d2 :
  dict_get k (d1 ++ d2) =
    match dict_get k d1 with
    | Some v => Some v
    | None => dict_get k d2
    end.
Proof.
  induction d1 as [|[k' v'] d1 IH]; simpl; [done |].
  by destruct (decide (k = k')).
Qed.

Lemma dict_set_fresh k v d : k ∉ dict_keys d → dict_set k v d = d ++ [(k, v)].
Proof.
  unfold dict_keys. induction d as [|[k' v'] d IH]; simpl; [done |].
  rewrite not_elem_of_cons. intros [Hne Hnotin].
  rewrite decide_False; [| done]. by rewrite IH.
Qed.

Lemma dict_set_elem k v d kv :
  kv ∈ dict_set k v d → kv ∈ d ∨ kv = (k, v).
Proof.
  induction d as [|[k' v'] d IH]; simpl.
  - rewrite list_elem_of_singleton. by right.
  - destruct (decide (k = k')) as [->|Hne]; rewrite !elem_of_cons.
    + intros [->|Hin]; [by right | left; by right].
    + intros [->|Hin]; [left; by left |].
      destruct (IH Hin) as [?|?]; [left; by right | by right].
Qed.

Lemma dict_update_cons d k v items :
  dict_update d ((k, v) :: items) = dict_update (dict_set k v d) items.
Proof. done. Qed.

(** After an update a key holds its last binding among the items, or
    what it held before. *)
Lemma dict_get_update k d items :
  dict_get k (dict_update d items) =
    match dict_get k (reverse items) with
    | Some v => Some v
    | None => dict_get k d
    end.
Proof.
  revert d. induction items as [|[k' v'] items IH]; intros d; [done |].
  rewrite dict_update_cons, IH, reverse_cons, dict_get_app. simpl.
  destruct (dict_get k (reverse items)); [done |].
  destruct (decide (k = k')) as [->|Hne].
  - apply dict_get_set_eq.
  - by apply dict_get_set_ne.
Qed.

Lemma dict_update_fresh d items :
  NoDup (dict_keys items) →
  (∀ k, k ∈ dict_keys items → k ∉ dict_keys d) →
  dict_update d items = d ++ items.
Proof.
  unfold dict_keys. revert d.
  induction items as [|[k v] items IH]; intros d Hnd Hfresh.
  - simpl. by rewrite app_nil_r.
  - rewrite dict_update_cons. simpl in Hnd.
    apply NoDup_cons in Hnd as [Hk Hnd].
    rewrite dict_set_fresh; [| apply Hfresh; simpl; apply list_elem_of_here].
    rewrite IH; [by rewrite <- app_assoc | done |].
    intros k' Hk'. rewrite fmap_app, elem_of_app. simpl.
    rewrite list_elem_of_singleton. intros [Hin| ->]; [| done].
    revert Hin. apply Hfresh. simpl. by apply list_elem_of_further.
Qed.

Lemma dict_update_elem d items kv :
  kv ∈ dict_update d items → kv ∈ d ∨ kv ∈ items.
Proof.
  revert d. induction items as [|[k v] items IH]; intros d; [by left |].
  rewrite dict_update_cons. intros Hin.
  destruct (IH _ Hin) as [Hd|Hitems].
  - destruct (dict_set_elem _ _ _ _ Hd) as [?| ->]; [by left |].
    right. apply list_elem_of_here.
  - right. by apply list_elem_of_further.
Qed.

(** With one binding per key the last binding is the only one. *)
Lemma dict_get_reverse k items :
  NoDup (dict_keys items) → dict_get k (reverse items) = dict_get k items.
Proof.
  unfold dict_keys. induction items as [|[k' v'] items IH]; [done |].
  simpl. intros Hnd. apply NoDup_cons in Hnd as [Hk Hnd].
  rewrite reverse_cons, dict_get_app, IH by done. simpl.
  destruct (decide (k = k')) as [->|Hne].
  - by apply dict_get_None in Hk as ->.
  - by destruct (dict_get k items).
Qed.
End DictFacts.

(** ** The table constructor *)

Lemma length_default_index n : length (default_index n) = n.
Proof. unfold default_index. by rewrite length_fmap, length_seq. Qed.

Lemma all_equal_true n ns m : all_equal (n :: ns) = true → m ∈ n :: ns → m = n.
Proof.
  simpl. rewrite forallb_forall, elem_of_cons. intros Hall [-> | Hin]; [done |].
  symmetry. apply Nat.eqb_eq, Hall. by apply list_elem_of_In.
Qed.

Lemma elem_of_raw_lengths vals l : VSeq l ∈ vals → length l ∈ raw_lengths vals.
Proof.
  intros Hin. unfold raw_lengths. apply list_elem_of_omap.
  by exists (VSeq l).
Qed.

Lemma raw_lengths_fits n vals :
  Forall (fits n) vals → Forall (eq n) (raw_lengths vals).
Proof.
  unfold raw_lengths. induction 1 as [|v vals Hv _ IH]; simpl; [done |].
  destruct v; simpl in *; [done | | done]. by constructor.
Qed.

Lemma dict_indexes_fits n vals : Forall (fits n) vals → dict_indexes vals = [].
Proof.
  unfold dict_indexes. induction 1 as [|v vals Hv _ IH]; simpl; [done |].
  by destruct v.
Qed.

Lemma all_equal_same n ns : Forall (eq n) ns → all_equal ns = true.
Proof.
  destruct 1 as [|m ns <- Hns]; simpl; [done |].
  apply forallb_forall. intros m Hm. apply Nat.eqb_eq.
  by apply (proj1 (Forall_forall _ _) Hns), list_elem_of_In.
Qed.

(** Scalars and sequences of one length [n], at least one sequence: the
    rows are numbered from [0] to [n - 1]. *)
Lemma extract_index_fits n vals l :
  Forall (fits n) vals → VSeq l ∈ vals →
  extract_index vals = Ok (default_index n).
Proof.
  intros Hfits Hin. unfold extract_index.
  destruct vals as [|v0 vals0] eqn:Hvals; [by apply elem_of_nil in Hin |].
  rewrite <- Hvals in *. clear Hvals v0 vals0.
  pose proof (raw_lengths_fits _ _ Hfits) as Hlen.
  rewrite (dict_indexes_fits _ _ Hfits).
  apply elem_of_raw_lengths in Hin.
  destruct (raw_lengths vals) as [|m ms] eqn:Hraw; [by apply elem_of_nil in Hin |].
  rewrite (all_equal_same _ _ Hlen). simpl.
  by apply Forall_cons in Hlen as [<- _].
Qed.

(** Two sequences of different lengths: the constructor refuses. *)
Lemma extract_index_uneven vals l1 l2 :
  VSeq l1 ∈ vals → VSeq l2 ∈ vals → length l1 ≠ length l2 →
  extract_index vals = Raise (ValueError ArraysLength).
Proof.
  intros H1 H2 Hne. unfold extract_index.
  destruct vals as [|v0 vals0] eqn:Hvals; [by apply elem_of_nil in H1 |].
  rewrite <- Hvals in *. clear Hvals v0 vals0.
  apply elem_of_raw_lengths in H1, H2.
  destruct (raw_lengths vals) as [|m ms] eqn:Hraw; [by apply elem_of_nil in H1 |].
  destruct (all_equal (m :: ms)) eqn:Heq; [| done].
  exfalso. apply Hne.
  by rewrite (all_equal_true _ _ _ Heq H1), (all_equal_true _ _ _ Heq H2).
Qed.

Lemma homogenize_fits index v :
  fits (length index) v → homogenize index v = Ok (broadcast (length index) v).
Proof.
  destruct v as [a|l|d]; simpl; [done | | done].
  intros Hlen. by rewrite decide_True.
Qed.

Lemma homogenize_all_fits index data :
  Forall (fits (length index)) (dict_values data) →
  homogenize_all index data =
    Ok ((fun kv => (kv.1, broadcast (length index) kv.2)) <$> data).
Proof.
  unfold dict_values. induction data as [|[k v] data IH]; simpl; [done |].
  intros Hall. apply Forall_cons in Hall as [Hv Hall].
  rewrite (homogenize_fits _ _ Hv). simpl. by rewrite (IH Hall).
Qed.

Lemma dict_get_fmap_value {A B} (f : A → B) (k : key) (d : dict key A) :
  dict_get k ((fun kv => (kv.1, f kv.2)) <$> d) = f <$> dict_get k d.
Proof.
  induction d as [|[k' v'] d IH]; simpl; [done |].
  by destruct (decide (k = k')).
Qed.


(** Scalars and sequences of one length, no index given. *)
Lemma pd_DataFrame_fits n data l :
  Forall (fits n) (dict_values data) → VSeq l ∈ dict_values data →
  pd_DataFrame data None =
    Ok (mkDataFrame (default_index n)
          ((fun kv => (kv.1, broadcast n kv.2)) <$> data)).
Proof.
  intros Hall Hin. unfold pd_DataFrame.
  rewrite (extract_index_fits n _ l) by done. simpl.
  rewrite homogenize_all_fits; rewrite length_default_index; done.
Qed.

Lemma pd_DataFrame_uneven data l1 l2 :
  VSeq l1 ∈ dict_values data → VSeq l2 ∈ dict_values data →
  length l1 ≠ length l2 →
  pd_DataFrame data None = Raise (ValueError ArraysLength).
Proof.
  intros H1 H2 Hne. unfold pd_DataFrame.
  by rewrite (extract_index_uneven _ l1 l2).
Qed.

(** Whatever the constructor returns has the keys of the data as its
    columns, and every column as long as the index. *)
Lemma homogenize_all_keys index data cols :
  homogenize_all index data = Ok cols → dict_keys cols = dict_keys data.
Proof.
  unfold dict_keys. revert cols.
  induction data as [|[k v] data IH]; simpl; intros cols.
  - by intros [= <-].
  - destruct (homogenize index v) as [col|]; simpl; [| done].
    destruct (homogenize_all index data) as [cols'|]; simpl; [| done].
    intros [= <-]. simpl. f_equal. by apply IH.
Qed.

Lemma homogenize_all_get index data cols k v :
  homogenize_all index data = Ok cols → dict_get k data = Some v →
  ∃ col, homogenize index v = Ok col ∧ dict_get k cols = Some col.
Proof.
  revert cols. induction data as [|[k' v'] data IH]; simpl; intros cols; [done |].
  destruct (homogenize index v') as [col|] eqn:Hcol; simpl; [| done].
  destruct (homogenize_all index data) as [cols'|]; simpl; [| done].
  intros [= <-]. simpl. destruct (decide (k = k')) as [->|Hne].
  - intros [= ->]. by exists col.
  - by apply IH.
Qed.

Lemma pd_DataFrame_columns data index df :
  pd_DataFrame data index = Ok df → df_columns df = dict_keys data.
Proof.
  unfold pd_DataFrame, df_columns.
  destruct (match index with Some i => Ok i | None => _ end) as [idx|]; [| done].
  simpl. destruct (homogenize_all idx data) as [cols|] eqn:Hcols; [| done].
  simpl. intros [= <-]. simpl. by apply homogenize_all_keys in Hcols.
Qed.

Lemma pd_DataFrame_get data index df k v :
  pd_DataFrame data index = Ok df → dict_get k data = Some v →
  ∃ col, homogenize (df_index df) v = Ok col ∧
         dict_get k (df_data df) = Some col.
Proof.
  unfold pd_DataFrame.
  destruct (match index with Some i => Ok i | None => _ end) as [idx|]; [| done].
  simpl. destruct (homogenize_all idx data) as [cols|] eqn:Hcols; [| done].
  simpl. intros [= <-]. simpl. by apply homogenize_all_get.
Qed.

(** ** The loop of [make_df] *)

#[global] Instance KStr_inj : Inj (=) (=) KStr.
Proof. by intros c1 c2 [= ->]. Qed.

Section LoopFacts.
Variable data : dict string value.

Lemma make_df_loop_fold columns acc b :
  fold_left (make_df_step data) columns (acc, b) =
    (dict_update acc (column_item data <$> columns),
     b && forallb (fun c => is_scalar (chain_data data c)) columns).
Proof.
  revert acc b. induction columns as [|c columns IH]; intros acc b; simpl.
  - by rewrite andb_true_r.
  - change (make_df_step data (acc, b) c)
      with (dict_set (KStr c) (chain_data data c) acc,
            b && is_scalar (chain_data data c)).
    rewrite IH. by rewrite andb_assoc.
Qed.

Lemma make_df_loop_eq columns :
  make_df_loop data columns =
    (dict_update [] (column_item data <$> columns),
     forallb (fun c => is_scalar (chain_data data c)) columns).
Proof. unfold make_df_loop. by rewrite make_df_loop_fold. Qed.

Lemma dict_get_column_items l c :
  dict_get (KStr c) (column_item data <$> l) =
    if decide (c ∈ l) then Some (chain_data data c) else None.
Proof.
  induction l as [|c' l IH]; [done |].
  rewrite fmap_cons. cbn [column_item dict_get].
  destruct (decide (KStr c = KStr c')) as [[= ->]|Hne].
  - rewrite decide_True; [done | apply list_elem_of_here].
  - rewrite IH. destruct (decide (c ∈ l)) as [Hin|Hnotin].
    + rewrite decide_True; [done | by apply list_elem_of_further].
    + rewrite decide_False; [done |].
      rewrite elem_of_cons. intros [-> | ?]; done.
Qed.

(** Every column is a key of [args["data"]], bound to the named input
    or to the placeholder. *)
Lemma make_df_loop_get columns c :
  c ∈ columns →
  dict_get (KStr c) (make_df_loop data columns).1 = Some (chain_data data c).
Proof.
  intros Hin. rewrite make_df_loop_eq. simpl.
  rewrite dict_get_update, <- fmap_reverse, dict_get_column_items.
  rewrite decide_True; [done | by apply elem_of_reverse].
Qed.

(** ... and [args["data"]] holds nothing else. *)
Lemma make_df_loop_elem columns kv :
  kv ∈ (make_df_loop data columns).1 →
  ∃ c, c ∈ columns ∧ kv = column_item data c.
Proof.
  rewrite make_df_loop_eq. simpl. intros Hin.
  apply dict_update_elem in Hin as [Hin|Hin]; [by apply elem_of_nil in Hin |].
  apply list_elem_of_fmap in Hin as (c & -> & Hc). by exists c.
Qed.


Lemma make_df_loop_value_elem columns c :
  c ∈ columns →
  chain_data data c ∈ dict_values (make_df_loop data columns).1.
Proof.
  intros Hc. apply list_elem_of_fmap.
  exists (KStr c, chain_data data c). split; [done |].
  apply dict_get_Some_elem. by apply make_df_loop_get.
Qed.

(** Distinct columns are stored in their order. *)
Lemma make_df_loop_NoDup columns :
  NoDup columns →
  (make_df_loop data columns).1 = column_item data <$> columns.
Proof.
  intros Hnd. rewrite make_df_loop_eq. simpl.
  rewrite dict_update_fresh; [done | |].
  - unfold dict_keys. rewrite <- list_fmap_compose.
    change (fst ∘ column_item data) with KStr.
    apply (NoDup_fmap_2 KStr _ Hnd).
  - intros k _. apply not_elem_of_nil.
Qed.

Lemma make_df_loop_all_scalar columns :
  (make_df_loop data columns).2 = true ↔
  ∀ c, c ∈ columns → is_scalar (chain_data data c) = true.
Proof.
  rewrite make_df_loop_eq. simpl. rewrite forallb_forall.
  split; intros Hall c Hc; apply Hall; by apply list_elem_of_In.
Qed.
End LoopFacts.

Lemma dict_get_restrict columns data c :
  c ∈ columns → dict_get c (restrict columns data) = dict_get c data.
Proof.
  intros Hc. unfold restrict. induction data as [|[k v] data IH]; [done |].
  rewrite filter_cons. simpl. destruct (decide (k ∈ columns)) as [Hin|Hnotin].
  - simpl. by rewrite IH.
  - rewrite IH. rewrite decide_False; [done |]. by intros ->.
Qed.

(** The loop reads the named inputs at the columns only. *)
Lemma make_df_loop_ext data data' columns :
  (∀ c, c ∈ columns → dict_get c data = dict_get c data') →
  make_df_loop data columns = make_df_loop data' columns.
Proof.
  intros Hext. unfold make_df_loop. generalize ([] : dict key value, true).
  induction columns as [|c columns IH]; intros st; simpl; [done |].
  assert (chain_data data c = chain_data data' c) as Hc.
  { unfold chain_data. rewrite Hext; [done | apply list_elem_of_here]. }
  unfold make_df_step at 2 4. rewrite Hc. apply IH.
  intros c' Hc'. apply Hext. by apply list_elem_of_further.
Qed.

(** ** [make_df] with the name of a parameter *)

Lemma homogenize_length index v col :
  homogenize index v = Ok col → length col = length index.
Proof.
  destruct v as [a|l|d]; simpl.
  - intros [= <-]. apply length_replicate.
  - case_decide; [by intros [= <-] | done].
  - intros [= <-]. apply length_fmap.
Qed.

Section MakeDfFacts.
Context {S : Type}.
Variables MESSAGE_ITEMS MACRO_ITEMS : gmap string item_info.
Implicit Types (w : World S) (data : dict string value).

Lemma make_df_NameStr name data w :
  make_df MESSAGE_ITEMS MACRO_ITEMS (NameStr name) data w =
    (w, make_df_str MESSAGE_ITEMS MACRO_ITEMS name data).
Proof. done. Qed.

(** The call on a parameter: the loop, then the constructor. *)
Lemma make_df_str_par name info sets data :
  chain_items MESSAGE_ITEMS MACRO_ITEMS name = Some info →
  ix_type info = "par" →
  idx_sets info = Some sets →
  let columns := default sets (idx_names info) ++ ["value"; "unit"] in
  make_df_str MESSAGE_ITEMS MACRO_ITEMS name data =
    pd_DataFrame (make_df_loop data columns).1
      (if (make_df_loop data columns).2 then Some [KInt 0%Z] else None).
Proof.
  intros Hinfo Hpar Hsets columns. unfold make_df_str, make_df_info.
  rewrite Hinfo, Hpar. simpl. unfold make_df_columns. rewrite Hsets. simpl.
  fold columns. by destruct (make_df_loop data columns).
Qed.

(** C1.  When [make_df] is called with the name of a parameter, the
    columns of the table it returns are the dimension names of the
    parameter (its index names, or its index sets when it has no index
    names) in their order, then "value", then "unit".  Every one of these
    columns is present and has one cell per row; a column the caller did
    not supply holds [None] in every row; the table has no other column;
    and named inputs that are not among these columns do not change the
    outcome.  The statement of the order supposes what holds of every
    parameter: its dimension names are distinct and none is "value" or
    "unit". *)
Theorem make_df_columns_exact name info sets data w w' df :
  chain_items MESSAGE_ITEMS MACRO_ITEMS name = Some info →
  ix_type info = "par" →
  idx_sets info = Some sets →
  make_df MESSAGE_ITEMS MACRO_ITEMS (NameStr name) data w = (w', Ok df) →
  let columns := default sets (idx_names info) ++ ["value"; "unit"] in
  (NoDup columns → df_columns df = KStr <$> columns) ∧
  (∀ k, k ∈ df_columns df → ∃ c, c ∈ columns ∧ k = KStr c) ∧
  (∀ c, c ∈ columns →
     ∃ col, dict_get (KStr c) (df_data df) = Some col ∧
            length col = df_nrows df ∧
            (dict_get c data = None → col = replicate (df_nrows df) ANone)) ∧
  make_df MESSAGE_ITEMS MACRO_ITEMS (NameStr name) (restrict columns data) w
    = (w', Ok df).
Proof.
  intros Hinfo Hpar Hsets Hcall columns.
  rewrite make_df_NameStr in Hcall. injection Hcall as <- Hdf.
  rewrite (make_df_str_par _ _ _ _ Hinfo Hpar Hsets) in Hdf. fold columns in Hdf.
  split; [| split; [| split]].
  - intros Hnd. rewrite (pd_DataFrame_columns _ _ _ Hdf).
    rewrite make_df_loop_NoDup by done.
    unfold dict_keys. by rewrite <- list_fmap_compose.
  - intros k Hk. rewrite (pd_DataFrame_columns _ _ _ Hdf) in Hk.
    apply list_elem_of_fmap in Hk as ([k' v] & -> & Hkv).
    apply make_df_loop_elem in Hkv as (c & Hc & [= -> _]). by exists c.
  - intros c Hc.
    destruct (pd_DataFrame_get _ _ _ _ _ Hdf (make_df_loop_get data columns c Hc))
      as (col & Hcol & Hget).
    exists col. split; [done |]. split.
    + by apply homogenize_length in Hcol.
    + intros Hnone. unfold chain_data in Hcol. rewrite Hnone in Hcol.
      simpl in Hcol. by injection Hcol as <-.
  - rewrite make_df_NameStr. f_equal.
    rewrite (make_df_str_par _ _ _ _ Hinfo Hpar Hsets). fold columns.
    rewrite <- (make_df_loop_ext data (restrict columns data)); [done |].
    intros c Hc. by rewrite dict_get_restrict.
Qed.
End MakeDfFacts.

Lemma make_df_columns_exact_witness :
  df_columns sample_table =
    KStr <$> ["node"; "commodity"; "level"; "year"; "time"; "value"; "unit"].
Proof.
  apply (make_df_columns_exact sample_MESSAGE_ITEMS sample_MACRO_ITEMS
           "demand" demand_info ["node"; "commodity"; "level"; "year"; "time"]
           sample_data empty_world empty_world sample_table).
  - vm_compute. reflexivity.
  - reflexivity.
  - reflexivity.
  - vm_compute. reflexivity.
  - apply (bool_decide_unpack _). vm_compute. exact I.
Defined.

Section MakeDfRows.
Context {S : Type}.
Variables MESSAGE_ITEMS MACRO_ITEMS : gmap string item_info.
Implicit Types (w : World S) (data : dict string value).


(** C5.  For a string name [make_df] reads the item from the first
    registry when the name is there, whatever the second holds, and from
    the second otherwise.  A name in neither registry raises at once the
    error that it is not a parameter, and an item whose kind is not "par"
    raises at once the error that names its kind; in both cases nothing
    was done before. *)
Theorem make_df_lookup name data w :
  (∀ info, MESSAGE_ITEMS !! name = Some info →
     make_df MESSAGE_ITEMS MACRO_ITEMS (NameStr name) data w =
       (w, make_df_info name info data)) ∧
  (∀ info, MESSAGE_ITEMS !! name = None → MACRO_ITEMS !! name = Some info →
     make_df MESSAGE_ITEMS MACRO_ITEMS (NameStr name) data w =
       (w, make_df_info name info data)) ∧
  (MESSAGE_ITEMS !! name = None → MACRO_ITEMS !! name = None →
     make_df MESSAGE_ITEMS MACRO_ITEMS (NameStr name) data w =
       (w, Raise (ValueError (NotAParameter name)))) ∧
  (∀ info, chain_items MESSAGE_ITEMS MACRO_ITEMS name = Some info →
     ix_type info ≠ "par" →
     make_df MESSAGE_ITEMS MACRO_ITEMS (NameStr name) data w =
       (w, Raise (ValueError (WrongIxType name (ix_type info))))).
Proof.
  rewrite make_df_NameStr. unfold make_df_str, chain_items.
  split; [| split; [| split]].
  - by intros info ->.
  - by intros info -> ->.
  - by intros -> ->.
  - intros info -> Hkind. unfold make_df_info.
    by rewrite bool_decide_eq_false_2.
Qed.

(** C7, amended.  When [make_df] is called with the name of a parameter
    and two of the parameter's columns are supplied as sequences of
    different lengths, the call raises the length error of the table
    constructor: it is the outcome of the constructor on the arguments
    that the loop built, handed on as it is. *)
Theorem make_df_uneven name info sets data c1 c2 l1 l2 w :
  chain_items MESSAGE_ITEMS MACRO_ITEMS name = Some info →
  ix_type info = "par" →
  idx_sets info = Some sets →
  let columns := default sets (idx_names info) ++ ["value"; "unit"] in
  c1 ∈ columns → c2 ∈ columns →
  dict_get c1 data = Some (VSeq l1) →
  dict_get c2 data = Some (VSeq l2) →
  length l1 ≠ length l2 →
  pd_DataFrame (make_df_loop data columns).1 None
    = Raise (ValueError ArraysLength) ∧
  make_df MESSAGE_ITEMS MACRO_ITEMS (NameStr name) data w
    = (w, Raise (ValueError ArraysLength)).
Proof.
  intros Hinfo Hpar Hsets columns Hc1 Hc2 Hget1 Hget2 Hne.
  assert (chain_data data c1 = VSeq l1) as Hseq1.
  { unfold chain_data. by rewrite Hget1. }
  assert (chain_data data c2 = VSeq l2) as Hseq2.
  { unfold chain_data. by rewrite Hget2. }
  assert (pd_DataFrame (make_df_loop data columns).1 None
          = Raise (ValueError ArraysLength)) as Hraise.
  { apply (pd_DataFrame_uneven _ l1 l2); [| | done].
    - rewrite <- Hseq1. by apply make_df_loop_value_elem.
    - rewrite <- Hseq2. by apply make_df_loop_value_elem. }
  split; [done |].
  rewrite make_df_NameStr. f_equal.
  rewrite (make_df_str_par _ _ _ _ _ data Hinfo Hpar Hsets). fold columns.
  destruct (make_df_loop data columns).2 eqn:Hflag; [| done].
  pose proof (proj1 (make_df_loop_all_scalar data columns) Hflag c1 Hc1)
    as Hscalar.
  by rewrite Hseq1 in Hscalar.
Qed.

(** C8.  For a string name [make_df] leaves the world as it found it (no
    object written, no warning issued, no call on a scenario), and what it
    returns or raises is the same in any two worlds: it is a function of
    the name, the named inputs and the two registries.  Of the registries
    it reads the entries under the name only. *)
Theorem make_df_pure name data w1 w2 MESSAGE_ITEMS' MACRO_ITEMS' :
  (make_df MESSAGE_ITEMS MACRO_ITEMS (NameStr name) data w1).1 = w1 ∧
  (make_df MESSAGE_ITEMS MACRO_ITEMS (NameStr name) data w1).2 =
    (make_df MESSAGE_ITEMS MACRO_ITEMS (NameStr name) data w2).2 ∧
  (MESSAGE_ITEMS' !! name = MESSAGE_ITEMS !! name →
   MACRO_ITEMS' !! name = MACRO_ITEMS !! name →
   (make_df MESSAGE_ITEMS' MACRO_ITEMS' (NameStr name) data w1).2 =
     (make_df MESSAGE_ITEMS MACRO_ITEMS (NameStr name) data w1).2).
Proof.
  rewrite !make_df_NameStr. split; [done |]. split; [done |].
  intros Hmessage Hmacro. simpl. unfold make_df_str, chain_items.
  by rewrite Hmessage, Hmacro.
Qed.
End MakeDfRows.

(** Membership in a list that is written out. *)
Ltac elem_of_cases H :=
  repeat (apply elem_of_cons in H as [-> | H]; [vm_compute; try done |]);
  try (by apply elem_of_nil in H).


Lemma make_df_lookup_witness :
  make_df sample_MESSAGE_ITEMS sample_MACRO_ITEMS (NameStr "demand")
    sample_data empty_world = (empty_world, Ok sample_table) ∧
  make_df sample_MESSAGE_ITEMS sample_MACRO_ITEMS (NameStr "grow")
    [] empty_world =
    (empty_world, make_df_info "grow" grow_info []) ∧
  make_df sample_MESSAGE_ITEMS sample_MACRO_ITEMS (NameStr "bogus")
    sample_data empty_world =
    (empty_world, Raise (ValueError (NotAParameter "bogus"))) ∧
  make_df sample_MESSAGE_ITEMS sample_MACRO_ITEMS (NameStr "commodity")
    sample_data empty_world =
    (empty_world, Raise (ValueError (WrongIxType "commodity" "set"))).
Proof.
  pose proof (make_df_lookup (S:=unit) sample_MESSAGE_ITEMS
                sample_MACRO_ITEMS) as H.
  split; [| split; [| split]].
  - apply (proj1 (H "demand" sample_data empty_world) demand_info).
    vm_compute. reflexivity.
  - apply (proj1 (proj2 (H "grow" [] empty_world)) grow_info);
      vm_compute; reflexivity.
  - apply (proj1 (proj2 (proj2 (H "bogus" sample_data empty_world))));
      vm_compute; reflexivity.
  - apply (proj2 (proj2 (proj2 (H "commodity" sample_data empty_world)))
             (mkItem "set" None None)).
    + vm_compute. reflexivity.
    + simpl. discriminate.
Defined.

(** C7 as it is stated fails: "node" and "extra" are supplied as sequences
    of lengths 2 and 3, and the call returns a table of two rows, because
    "extra" is no column of "demand" and never reaches the constructor. *)
Lemma make_df_uneven_ignored_key :
  dict_get "node" uneven_data = Some (VSeq [AStr "foo"; AStr "bar"]) ∧
  dict_get "extra" uneven_data = Some (VSeq [ANum 1; ANum 2; ANum 3]) ∧
  length [AStr "foo"; AStr "bar"] ≠ length [ANum 1; ANum 2; ANum 3] ∧
  ∃ df,
    make_df sample_MESSAGE_ITEMS sample_MACRO_ITEMS (NameStr "demand")
      uneven_data empty_world = (empty_world, Ok df) ∧
    df_nrows df = 2.
Proof.
  split; [reflexivity |]. split; [reflexivity |]. split; [simpl; lia |].
  eexists. split; [vm_compute; reflexivity | reflexivity].
Qed.

Lemma make_df_uneven_witness :
  make_df sample_MESSAGE_ITEMS sample_MACRO_ITEMS (NameStr "demand")
    uneven_columns_data empty_world
    = (empty_world, Raise (ValueError ArraysLength)).
Proof.
  apply (make_df_uneven sample_MESSAGE_ITEMS sample_MACRO_ITEMS
           "demand" demand_info
           ["node"; "commodity"; "level"; "year"; "time"]
           uneven_columns_data "node" "value"
           [AStr "foo"; AStr "bar"] [ANum 1; ANum 2; ANum 3] empty_world).
  - vm_compute. reflexivity.
  - reflexivity.
  - reflexivity.
  - apply list_elem_of_here.
  - apply (bool_decide_unpack _). vm_compute. exact I.
  - reflexivity.
  - reflexivity.
  - simpl. lia.
Defined.

Lemma make_df_pure_witness :
  (make_df sample_MESSAGE_ITEMS sample_MACRO_ITEMS (NameStr "demand")
     sample_data legacy_world).1 = legacy_world ∧
  (make_df sample_MESSAGE_ITEMS sample_MACRO_ITEMS (NameStr "demand")
     sample_data legacy_world).2 =
    (make_df sample_MESSAGE_ITEMS sample_MACRO_ITEMS (NameStr "demand")
       sample_data empty_world).2 ∧
  (make_df (<["demand" := demand_info]> ∅)
     (delete "grow" sample_MACRO_ITEMS) (NameStr "demand")
     sample_data legacy_world).2 =
    (make_df sample_MESSAGE_ITEMS sample_MACRO_ITEMS (NameStr "demand")
       sample_data legacy_world).2.
Proof.
  destruct (make_df_pure sample_MESSAGE_ITEMS sample_MACRO_ITEMS "demand"
              sample_data legacy_world empty_world
              (<["demand" := demand_info]> ∅)
              (delete "grow" sample_MACRO_ITEMS)) as (H1 & H2 & H3).
  split; [exact H1 |]. split; [exact H2 |].
  apply H3; vm_compute; reflexivity.
Defined.

(** ** Running a computation step by step *)

Section EffectFacts.
Context {S : Type}.
Implicit Types (w : World S).

Lemma bind_Ok {A B} (m : M S A) (f : A → M S B) w w' a :
  m w = (w', Ok a) → (m ≫= f) w = f a w'.
Proof. unfold mbind, M_bind. by intros ->. Qed.

Lemma bind_Raise {A B} (m : M S A) (f : A → M S B) w w' e :
  m w = (w', Raise e) → (m ≫= f) w = (w', Raise e).
Proof. unfold mbind, M_bind. by intros ->. Qed.

Lemma call_Ok {A} ev (op : S → S * result A) w s' r :
  op (scenario w) = (s', r) →
  call ev op w =
    (mkWorld (objects w) (warnings w) (trace w ++ [ev]) s', r).
Proof.
  intros Hop. unfold call. erewrite bind_Ok; [| reflexivity].
  unfold on_scenario. simpl. by rewrite Hop.
Qed.
End EffectFacts.

(** ** The deprecated signature *)

Section LegacyFacts.
Context {S : Type}.
Implicit Types (w : World S).

(** The objects and the warnings that a call leaves behind: one copy of
    the base, the plain mapping made of it when it is not one, and the
    update applied to whichever of the two is the mapping. *)
Lemma _deprecated_make_df_run base o kwargs w :
  objects w !! base = Some o →
  let merged := dict_update (as_mapping o) (prod_map KStr id <$> kwargs) in
  _deprecated_make_df base kwargs w =
    (mkWorld
       (objects w ++
          match o with
          | ODict _ => [ODict merged]
          | _ => [o; ODict merged]
          end)
       (warnings w ++
          DeprecationWarning deprecation_text ::
          match o with
          | ODataFrame df =>
              if bool_decide (NoDup (df_columns df)) then []
              else [UserWarning columns_not_unique_text]
          | _ => []
          end)
       (trace w) (scenario w),
     pd_DataFrame merged None).
Proof.
  intros Hbase merged.
  unfold _deprecated_make_df, deepcopy, update, DataFrame_to_dict.
  unfold mbind, M_bind, mret, M_ret, warn, deref, alloc, assign, lift, raise.
  simpl. rewrite Hbase. simpl.
  rewrite list_lookup_middle by done.
  destruct o as [d|s|df]; simpl.
  - rewrite list_lookup_middle by done. simpl.
    rewrite insert_app_r_alt, Nat.sub_diag by done. simpl.
    rewrite list_lookup_middle by done. by rewrite <- ?app_assoc.
  - rewrite list_lookup_middle by done. simpl.
    rewrite insert_app_r_alt, Nat.sub_diag by done. simpl.
    rewrite list_lookup_middle by done. by rewrite <- ?app_assoc.
  - destruct (bool_decide (NoDup (df_columns df))); simpl.
    + rewrite list_lookup_middle by done. simpl.
      rewrite insert_app_r_alt, Nat.sub_diag by done. simpl.
      rewrite list_lookup_middle by done. by rewrite <- ?app_assoc.
    + rewrite list_lookup_middle by done. simpl.
      rewrite insert_app_r_alt, Nat.sub_diag by done. simpl.
      rewrite list_lookup_middle by done. by rewrite <- ?app_assoc.
Qed.
End LegacyFacts.

Lemma dict_get_keywords {V} (k : key) (kwargs : dict string V) :
  dict_get k (prod_map KStr id <$> kwargs) =
    match k with
    | KStr c => dict_get c kwargs
    | KInt _ => None
    end.
Proof.
  induction kwargs as [|[c' v'] kwargs IH]; [by destruct k |].
  rewrite fmap_cons. cbn [dict_get prod_map fst snd id].
  destruct k as [z|c].
  - rewrite decide_False by done. apply IH.
  - destruct (decide (c = c')) as [->|Hne].
    + by rewrite decide_True.
    + rewrite decide_False by congruence. apply IH.
Qed.

Lemma dict_keys_keywords {V} (kwargs : dict string V) :
  dict_keys (prod_map KStr id <$> kwargs) = KStr <$> dict_keys kwargs.
Proof.
  unfold dict_keys. rewrite <- !list_fmap_compose.
  apply list_fmap_ext. by intros _ [c v] _.
Qed.

Section LegacyTheorems.
Context {S : Type}.
Variables MESSAGE_ITEMS MACRO_ITEMS : gmap string item_info.
Implicit Types (w : World S).

Lemma dict_mem_absent (c : string) (kwargs : dict string value) :
  c ∉ dict_keys kwargs → dict_mem c kwargs = false.
Proof.
  intros Hc. unfold dict_mem. by apply dict_get_None in Hc as ->.
Qed.

(** Without a keyword called "base" the call goes into
    [_deprecated_make_df]. *)
Lemma make_df_NameObj base kwargs w :
  "base" ∉ dict_keys kwargs →
  make_df MESSAGE_ITEMS MACRO_ITEMS (NameObj base) kwargs w =
    _deprecated_make_df base kwargs w.
Proof. intros Hc. simpl. by rewrite dict_mem_absent. Qed.

(** C6, amended.  When [make_df] is called with a reference to a mapping,
    a series or a data frame in place of a name, and no keyword is called
    "base", the first thing it does is to issue the deprecation warning;
    it then goes on to the table constructor, and the outcome of the call
    is the outcome of the constructor.  Every object that existed before
    the call, the base among them, is afterwards what it was before: the
    update is applied to a copy.  In the mapping given to the constructor
    a key of the keyword arguments is bound to the value of the keyword
    argument, whether or not the base had it, and every other key is
    bound as in the base.  No call on a scenario is made.  (The keyword
    arguments of a call have one binding per key, and none is called
    "name": that one is the first parameter of [make_df].) *)
Theorem make_df_deprecated base o kwargs w :
  objects w !! base = Some o →
  NoDup (dict_keys kwargs) →
  "name" ∉ dict_keys kwargs →
  "base" ∉ dict_keys kwargs →
  ∃ w' merged later,
    make_df MESSAGE_ITEMS MACRO_ITEMS (NameObj base) kwargs w
      = (w', pd_DataFrame merged None) ∧
    warnings w' =
      warnings w ++ DeprecationWarning deprecation_text :: later ∧
    (∀ r o', objects w !! r = Some o' → objects w' !! r = Some o') ∧
    (∀ c v, dict_get c kwargs = Some v →
            dict_get (KStr c) merged = Some v) ∧
    (∀ k, (∀ c, k = KStr c → dict_get c kwargs = None) →
          dict_get k merged = dict_get k (as_mapping o)) ∧
    trace w' = trace w ∧
    scenario w' = scenario w.
Proof.
  intros Hbase Hnd _ Hkey. rewrite (make_df_NameObj _ _ _ Hkey).
  rewrite (_deprecated_make_df_run _ _ _ _ Hbase).
  assert (∀ k, dict_get k (reverse (prod_map KStr id <$> kwargs)) =
               match k with
               | KStr c => dict_get c kwargs
               | KInt _ => None
               end) as Hlast.
  { intros k. rewrite dict_get_reverse; [apply dict_get_keywords |].
    rewrite dict_keys_keywords. apply (NoDup_fmap_2 KStr _ Hnd). }
  eexists _, _, _. split; [reflexivity |].
  split; [reflexivity |]. split; [| split; [| split; [| done]]].
  - intros r o' Hr. simpl. by apply lookup_app_l_Some.
  - intros c v Hc. by rewrite dict_get_update, Hlast, Hc.
  - intros k Hk. rewrite dict_get_update, Hlast.
    destruct k as [z|c]; [done |]. by rewrite (Hk c eq_refl).
Qed.
End LegacyTheorems.

Lemma make_df_deprecated_witness :
  ∃ w' merged later,
    make_df sample_MESSAGE_ITEMS sample_MACRO_ITEMS (NameObj 0)
      legacy_kwargs legacy_world = (w', pd_DataFrame merged None) ∧
    warnings w' =
      warnings legacy_world ++ DeprecationWarning deprecation_text :: later ∧
    (∀ r o', objects legacy_world !! r = Some o' →
             objects w' !! r = Some o') ∧
    (∀ c v, dict_get c legacy_kwargs = Some v →
            dict_get (KStr c) merged = Some v) ∧
    (∀ k, (∀ c, k = KStr c → dict_get c legacy_kwargs = None) →
          dict_get k merged =
            dict_get k [(KStr "year",
                         VSeq [ANum 2020; ANum 2021; ANum 2022])]) ∧
    trace w' = trace legacy_world ∧
    scenario w' = scenario legacy_world.
Proof.
  apply (make_df_deprecated sample_MESSAGE_ITEMS sample_MACRO_ITEMS 0
           (ODict [(KStr "year", VSeq [ANum 2020; ANum 2021; ANum 2022])])
           legacy_kwargs legacy_world).
  - reflexivity.
  - apply (bool_decide_unpack _). vm_compute. exact I.
  - apply (bool_decide_unpack _). vm_compute. exact I.
  - apply (bool_decide_unpack _). vm_compute. exact I.
Defined.

(** C6 as it is stated fails: with a keyword called "base" the call on
    the mapping [{"foo": "bar"}] raises the type error of an argument
    given twice, and no warning has been issued. *)
Lemma make_df_deprecated_base_keyword :
  objects scalar_base_world !! 0
    = Some (ODict [(KStr "foo", VScalar (AStr "bar"))]) ∧
  make_df sample_MESSAGE_ITEMS sample_MACRO_ITEMS (NameObj 0) base_kwargs
    scalar_base_world
    = (scalar_base_world, Raise (TypeError (MultipleValuesArgument "base"))) ∧
  warnings scalar_base_world = [].
Proof. repeat split. Qed.

(** ** Keyword arguments *)

Lemma dict_mem_true {K V} `{EqDecision K} (k : K) (d : dict K V) :
  dict_mem k d = true ↔ k ∈ dict_keys d.
Proof.
  unfold dict_mem. rewrite bool_decide_eq_true.
  destruct (dict_get k d) as [v|] eqn:Hget.
  - split; [| by eexists]. intros _.
    destruct (decide (k ∈ dict_keys d)) as [|Hnotin]; [done |].
    apply dict_get_None in Hnotin. congruence.
  - split; [by intros [v [=]] |]. intros Hin.
    by apply dict_get_None in Hget.
Qed.

Lemma merge_keywords_bound acc items k :
  k ∈ dict_keys acc → k ∈ dict_keys items →
  ∃ k', merge_keywords acc items = Raise (TypeError (MultipleValuesKeyword k')).
Proof.
  revert acc. induction items as [|[k0 v0] items IH]; intros acc Hacc Hitems.
  - by apply elem_of_nil in Hitems.
  - simpl. destruct (dict_mem k0 acc) eqn:Hmem; [by exists k0 |].
    apply IH.
    + unfold dict_keys. rewrite fmap_app. apply elem_of_app. by left.
    + unfold dict_keys in Hitems. simpl in Hitems.
      apply elem_of_cons in Hitems as [-> | Hin]; [| done].
      apply dict_mem_true in Hacc. congruence.
Qed.

(** A key met in both mappings of a call is an error. *)
Lemma merge_keywords_twice acc items1 items2 k :
  k ∈ dict_keys acc ∨ k ∈ dict_keys items1 →
  k ∈ dict_keys items2 →
  ∃ k', merge_keywords acc (items1 ++ items2)
        = Raise (TypeError (MultipleValuesKeyword k')).
Proof.
  revert acc. induction items1 as [|[k0 v0] items1 IH]; intros acc H1 H2.
  - destruct H1 as [H1|H1]; [| by apply elem_of_nil in H1].
    by apply (merge_keywords_bound _ _ k).
  - simpl. destruct (dict_mem k0 acc) eqn:Hmem; [by exists k0 |].
    apply IH; [| done].
    unfold dict_keys in *. rewrite fmap_app, elem_of_app. simpl in *.
    rewrite list_elem_of_singleton.
    destruct H1 as [H1|H1]; [by left; left |].
    apply elem_of_cons in H1 as [-> | H1]; [left; by right | by right].
Qed.

Lemma make_df_keywords_duplicate existing data c :
  KStr c ∈ df_columns existing → c ∈ dict_keys data →
  ∃ k, make_df_keywords existing data
       = Raise (TypeError (MultipleValuesKeyword k)).
Proof.
  intros Hcol Hdata. unfold make_df_keywords.
  destruct (merge_keywords_twice [] (DataFrame_items existing)
              (prod_map KStr id <$> data) (KStr c)) as [k Hk].
  - right. unfold DataFrame_items, dict_keys. rewrite <- list_fmap_compose.
    exact Hcol.
  - rewrite dict_keys_keywords. by apply list_elem_of_fmap_2.
  - exists k. by rewrite Hk.
Qed.

(** ** [expand_dims] *)

Section ExpandDimsFacts.
Context {S : Type} `{Scenario S}.
Variables MESSAGE_ITEMS MACRO_ITEMS : gmap string item_info.
Implicit Types (w : World S) (data : dict string value).

Lemma issued_issued w calls1 s1 calls2 s2 :
  issued (issued w calls1 s1) calls2 s2 = issued w (calls1 ++ calls2) s2.
Proof. unfold issued. simpl. by rewrite <- app_assoc. Qed.

Lemma call_issued {A} ev (op : S → S * result A) w s' r :
  op (scenario w) = (s', r) → call ev op w = (issued w [ev] s', r).
Proof. apply call_Ok. Qed.

(** Up to the [with] statement: the table is read, the keyword arguments
    are formed, the table is built and checked. *)
Lemma expand_dims_prefix name data w s1 existing :
  par name (scenario w) = (s1, Ok existing) →
  expand_dims MESSAGE_ITEMS MACRO_ITEMS name data w =
    match make_df_keywords existing data with
    | Raise e => (issued w [CallPar name] s1, Raise e)
    | Ok kw =>
        match make_df_str MESSAGE_ITEMS MACRO_ITEMS name kw with
        | Raise e => (issued w [CallPar name] s1, Raise e)
        | Ok new_data =>
            if df_isna_any new_data then
              (issued w [CallPar name] s1,
               Raise (AssertionError incomplete_text))
            else
              with_transact (transact_text name)
                (expand_dims_body MESSAGE_ITEMS name new_data)
                (issued w [CallPar name] s1)
        end
    end.
Proof.
  intros Hpar. unfold expand_dims.
  erewrite bind_Ok; [| by apply call_issued].
  destruct (make_df_keywords existing data) as [kw|e]; [| done].
  erewrite bind_Ok; [| reflexivity].
  destruct (make_df_str MESSAGE_ITEMS MACRO_ITEMS name kw) as [new_data|e]
    eqn:Hdf.
  - erewrite bind_Ok; [| by rewrite make_df_NameStr, Hdf].
    destruct (df_isna_any new_data); [done |].
    by erewrite bind_Ok.
  - erewrite bind_Raise; [done |]. by rewrite make_df_NameStr, Hdf.
Qed.

(** The [with] statement, once the transaction is entered and the body
    has run. *)
Lemma with_transact_run msg body w s2 w3 (r : result unit) :
  transact_enter msg (scenario w) = (s2, Ok tt) →
  body (issued w [CallTransact msg] s2) = (w3, r) →
  with_transact msg body w =
    let e := match r with Ok _ => None | Raise e => Some e end in
    (issued w3 [ExitTransact e] (transact_exit e (scenario w3)).1,
     block_outcome e (transact_exit e (scenario w3)).2).
Proof.
  intros Henter Hbody. unfold with_transact.
  erewrite bind_Ok; [| by apply call_issued].
  erewrite bind_Ok; [| unfold catch; by rewrite Hbody].
  destruct (transact_exit (match r with Ok _ => None | Raise e => Some e end)
              (scenario w3)) as [s4 r4] eqn:Hexit.
  destruct r as [[]|e]; simpl in *.
  - destruct r4 as [b|e4].
    + erewrite bind_Ok; [| by apply call_issued]. by destruct b.
    + erewrite bind_Raise; [| by apply call_issued]. done.
  - destruct r4 as [b|e4].
    + erewrite bind_Ok; [| by apply call_issued]. by destruct b.
    + erewrite bind_Raise; [| by apply call_issued]. done.
Qed.

(** The body for a name that the first registry lacks: the stored data
    are removed, then the look-up raises. *)
Lemma expand_dims_body_missing name new_data w s3 :
  MESSAGE_ITEMS !! name = None →
  remove_par name (scenario w) = (s3, Ok tt) →
  expand_dims_body MESSAGE_ITEMS name new_data w =
    (issued w [CallRemovePar name] s3, Raise (KeyError name)).
Proof.
  intros Hnone Hremove. unfold expand_dims_body.
  erewrite bind_Ok; [| by apply call_issued].
  unfold MESSAGE_ITEMS_getitem. by rewrite Hnone.
Qed.

(** The body for a name of the first registry, when no call raises. *)
Lemma expand_dims_body_run name info new_data w s3 s4 s5 :
  MESSAGE_ITEMS !! name = Some info →
  remove_par name (scenario w) = (s3, Ok tt) →
  initialize_items name info s3 = (s4, Ok tt) →
  add_par name new_data s4 = (s5, Ok tt) →
  expand_dims_body MESSAGE_ITEMS name new_data w =
    (issued w [CallRemovePar name; CallInitializeItems name info;
               CallAddPar name new_data] s5, Ok tt).
Proof.
  intros Hinfo Hremove Hinit Hadd. unfold expand_dims_body.
  erewrite bind_Ok; [| by apply call_issued].
  unfold MESSAGE_ITEMS_getitem. rewrite Hinfo.
  erewrite bind_Ok; [| reflexivity].
  erewrite bind_Ok; [| by apply call_issued].
  erewrite call_issued; [| exact Hadd]. by rewrite !issued_issued.
Qed.
End ExpandDimsFacts.

Section ExpandDimsTheorems.
Context {S : Type} `{Scenario S}.
Variables MESSAGE_ITEMS MACRO_ITEMS : gmap string item_info.
Implicit Types (w : World S) (data : dict string value).

(** C3.  When the table that [make_df] builds from the stored rows and the
    caller's new values has a missing cell, [expand_dims] raises the
    assertion error "Expanded data are incomplete", and the only call it
    has issued on the scenario is the read of the stored table: the
    transaction was not opened and nothing was removed, initialized or
    added. *)
Theorem expand_dims_incomplete name data w s1 existing kw new_data :
  par name (scenario w) = (s1, Ok existing) →
  make_df_keywords existing data = Ok kw →
  make_df_str MESSAGE_ITEMS MACRO_ITEMS name kw = Ok new_data →
  df_isna_any new_data = true →
  ∃ w',
    expand_dims MESSAGE_ITEMS MACRO_ITEMS name data w
      = (w', Raise (AssertionError incomplete_text)) ∧
    trace w' = trace w ++ [CallPar name] ∧
    scenario w' = s1.
Proof.
  intros Hpar Hkw Hdf Hna.
  rewrite (expand_dims_prefix _ _ _ _ _ _ _ Hpar), Hkw, Hdf, Hna.
  by eexists.
Qed.

(** C4, amended.  When the call passes the check, the name is in the
    first registry and no call on the scenario raises, [expand_dims]
    issues, after the read: the opening of one transaction, the removal
    of the parameter, its initialization with the item of the first
    registry, the addition of the new table, and the normal exit of the
    transaction; nothing else. *)
Theorem expand_dims_transaction
    name info data w s1 s2 s3 s4 s5 existing kw new_data :
  MESSAGE_ITEMS !! name = Some info →
  par name (scenario w) = (s1, Ok existing) →
  make_df_keywords existing data = Ok kw →
  make_df_str MESSAGE_ITEMS MACRO_ITEMS name kw = Ok new_data →
  df_isna_any new_data = false →
  transact_enter (transact_text name) s1 = (s2, Ok tt) →
  remove_par name s2 = (s3, Ok tt) →
  initialize_items name info s3 = (s4, Ok tt) →
  add_par name new_data s4 = (s5, Ok tt) →
  ∃ w',
    expand_dims MESSAGE_ITEMS MACRO_ITEMS name data w
      = (w', block_outcome None (transact_exit None s5).2) ∧
    trace w' =
      trace w ++ [CallPar name;
                  CallTransact (transact_text name);
                  CallRemovePar name;
                  CallInitializeItems name info;
                  CallAddPar name new_data;
                  ExitTransact None].
Proof.
  intros Hinfo Hpar Hkw Hdf Hna Henter Hremove Hinit Hadd.
  rewrite (expand_dims_prefix _ _ _ _ _ _ _ Hpar), Hkw, Hdf, Hna.
  erewrite with_transact_run; [| exact Henter |].
  2: { by apply (expand_dims_body_run _ _ info _ _ s3 s4 s5). }
  eexists. split; [reflexivity |]. simpl. by rewrite <- !app_assoc.
Qed.

(** C9.  When a keyword of the caller's data is also a column of the
    stored table, [expand_dims] raises the type error of a keyword
    argument given twice.  This happens while the call of [make_df] is
    formed: the only call issued on the scenario is the read, so there
    was no check of the table and no transaction. *)
Theorem expand_dims_duplicate_keyword name data w s1 existing c :
  par name (scenario w) = (s1, Ok existing) →
  KStr c ∈ df_columns existing →
  c ∈ dict_keys data →
  ∃ w' k,
    expand_dims MESSAGE_ITEMS MACRO_ITEMS name data w
      = (w', Raise (TypeError (MultipleValuesKeyword k))) ∧
    trace w' = trace w ++ [CallPar name] ∧
    scenario w' = s1.
Proof.
  intros Hpar Hcol Hdata.
  destruct (make_df_keywords_duplicate existing data c Hcol Hdata) as [k Hk].
  rewrite (expand_dims_prefix _ _ _ _ _ _ _ Hpar), Hk.
  by eexists _, k.
Qed.

(** C10.  When the name is in the second registry only, [make_df] finds
    its item there, so the table is built and checked as for any other
    parameter.  Then the transaction is opened and the removal of the
    parameter is issued; when these two return, the look-up of the name
    in the first registry raises [KeyError] inside the [with] block:
    the exit of the transaction receives this exception, and neither the
    initialization nor the addition was issued. *)
Theorem expand_dims_macro_only
    name info data w s1 s2 s3 existing kw new_data :
  MESSAGE_ITEMS !! name = None →
  MACRO_ITEMS !! name = Some info →
  par name (scenario w) = (s1, Ok existing) →
  make_df_keywords existing data = Ok kw →
  make_df_info name info kw = Ok new_data →
  df_isna_any new_data = false →
  transact_enter (transact_text name) s1 = (s2, Ok tt) →
  remove_par name s2 = (s3, Ok tt) →
  make_df_str MESSAGE_ITEMS MACRO_ITEMS name kw = Ok new_data ∧
  ∃ w',
    expand_dims MESSAGE_ITEMS MACRO_ITEMS name data w
      = (w', block_outcome (Some (KeyError name))
               (transact_exit (Some (KeyError name)) s3).2) ∧
    trace w' =
      trace w ++ [CallPar name;
                  CallTransact (transact_text name);
                  CallRemovePar name;
                  ExitTransact (Some (KeyError name))].
Proof.
  intros Hnone Hmacro Hpar Hkw Hinfo Hna Henter Hremove.
  assert (make_df_str MESSAGE_ITEMS MACRO_ITEMS name kw = Ok new_data) as Hdf.
  { unfold make_df_str, chain_items. by rewrite Hnone, Hmacro. }
  split; [done |].
  rewrite (expand_dims_prefix _ _ _ _ _ _ _ Hpar), Hkw, Hdf, Hna.
  erewrite with_transact_run; [| exact Henter |].
  2: { by apply (expand_dims_body_missing _ _ _ _ s3). }
  eexists. split; [reflexivity |]. simpl. by rewrite <- !app_assoc.
Qed.
End ExpandDimsTheorems.

Lemma expand_dims_incomplete_witness :
  ∃ w',
    expand_dims sample_MESSAGE_ITEMS sample_MACRO_ITEMS "demand" year_data
      stored_world = (w', Raise (AssertionError incomplete_text)) ∧
    trace w' = [CallPar "demand"] ∧
    scenario w' = scenario stored_world.
Proof.
  eapply (expand_dims_incomplete sample_MESSAGE_ITEMS sample_MACRO_ITEMS
            "demand" year_data stored_world (scenario stored_world)
            stored_table).
  - vm_compute. reflexivity.
  - vm_compute. reflexivity.
  - vm_compute. reflexivity.
  - vm_compute. reflexivity.
Defined.

Lemma expand_dims_transaction_witness :
  ∃ w',
    expand_dims sample_MESSAGE_ITEMS sample_MACRO_ITEMS "demand" demand_data
      stored_world = (w', Ok tt) ∧
    trace w' =
      [CallPar "demand";
       CallTransact (transact_text "demand");
       CallRemovePar "demand";
       CallInitializeItems "demand" demand_info;
       CallAddPar "demand" demand_table;
       ExitTransact None].
Proof.
  exact (expand_dims_transaction sample_MESSAGE_ITEMS sample_MACRO_ITEMS
           "demand" demand_info demand_data stored_world
           (scenario stored_world) (scenario stored_world)
           demand_removed demand_initialized demand_added
           stored_table demand_keywords demand_table
           ltac:(vm_compute; reflexivity) ltac:(vm_compute; reflexivity)
           ltac:(vm_compute; reflexivity) ltac:(vm_compute; reflexivity)
           ltac:(vm_compute; reflexivity) eq_refl eq_refl eq_refl eq_refl).
Defined.

(** C4 as it is stated fails: for "grow", a parameter of the second
    registry only, the call passes the check (the table is built and has
    no missing cell), and then issues one change of the stored data, the
    removal, instead of three. *)
Lemma expand_dims_macro_parameter_removed :
  par "grow" (scenario stored_world)
    = (scenario stored_world, Ok stored_table) ∧
  make_df_keywords stored_table year_data = Ok grow_keywords ∧
  make_df_str sample_MESSAGE_ITEMS sample_MACRO_ITEMS "grow" grow_keywords
    = Ok grow_table ∧
  df_isna_any grow_table = false ∧
  List.filter is_mutation
    (trace (expand_dims sample_MESSAGE_ITEMS sample_MACRO_ITEMS "grow"
              year_data stored_world).1)
    = [CallRemovePar "grow"].
Proof. repeat split; vm_compute; reflexivity. Qed.

Lemma expand_dims_duplicate_keyword_witness :
  ∃ w' k,
    expand_dims sample_MESSAGE_ITEMS sample_MACRO_ITEMS "demand"
      [("year", VScalar (ANum 2020)); ("node", VScalar (AStr "C"))]
      stored_world = (w', Raise (TypeError (MultipleValuesKeyword k))) ∧
    trace w' = [CallPar "demand"] ∧
    scenario w' = scenario stored_world.
Proof.
  eapply (expand_dims_duplicate_keyword sample_MESSAGE_ITEMS
            sample_MACRO_ITEMS "demand" _ stored_world
            (scenario stored_world) stored_table "node").
  - vm_compute. reflexivity.
  - apply list_elem_of_here.
  - apply (bool_decide_unpack _). vm_compute. exact I.
Defined.

Lemma expand_dims_macro_only_witness :
  ∃ w',
    expand_dims sample_MESSAGE_ITEMS sample_MACRO_ITEMS "grow" year_data
      stored_world = (w', Raise (KeyError "grow")) ∧
    trace w' =
      [CallPar "grow";
       CallTransact (transact_text "grow");
       CallRemovePar "grow";
       ExitTransact (Some (KeyError "grow"))].
Proof.
  exact (proj2 (expand_dims_macro_only sample_MESSAGE_ITEMS
            sample_MACRO_ITEMS "grow" grow_info year_data stored_world
            (scenario stored_world) (scenario stored_world)
            (remove_par "grow" (scenario stored_world)).1
            stored_table grow_keywords grow_table
            ltac:(vm_compute; reflexivity) ltac:(vm_compute; reflexivity)
            ltac:(vm_compute; reflexivity) ltac:(vm_compute; reflexivity)
            ltac:(vm_compute; reflexivity) ltac:(vm_compute; reflexivity)
            eq_refl eq_refl)).
Defined.

(** * Further properties *)

(** ** Named inputs of [make_df] *)

Section DictOrder.
Context {K V : Type} `{EqDecision K}.
Implicit Types (k : K) (v : V) (d : dict K V).

Lemma dict_get_elem_NoDup k v d :
  NoDup (dict_keys d) → (k, v) ∈ d → dict_get k d = Some v.
Proof.
  unfold dict_keys. induction d as [|[k' v'] d IH]; simpl.
  - intros _ Hin. by apply elem_of_nil in Hin.
  - intros Hnd Hin. apply NoDup_cons in Hnd as [Hk' Hnd].
    apply elem_of_cons in Hin as [[= -> ->]|Hin].
    + by rewrite decide_True.
    + destruct (decide (k = k')) as [->|Hne]; [| by apply IH].
      exfalso. apply Hk'. by apply (list_elem_of_fmap_2 fst _ (k', v)).
Qed.

(** A dict read by key does not show the order of its items. *)
Lemma dict_get_Permutation k d d' :
  NoDup (dict_keys d) → d ≡ₚ d' → dict_get k d = dict_get k d'.
Proof.
  intros Hnd Hperm.
  assert (NoDup (dict_keys d')) as Hnd'.
  { unfold dict_keys in *. by rewrite <- Hperm. }
  destruct (dict_get k d) as [v|] eqn:Hget.
  - symmetry. apply dict_get_elem_NoDup; [done |].
    rewrite <- Hperm. by apply dict_get_Some_elem.
  - symmetry. apply dict_get_None. apply dict_get_None in Hget.
    unfold dict_keys in *. by rewrite <- Hperm.
Qed.
End DictOrder.




Section NamedInputs.
Context {S : Type}.
Variables MESSAGE_ITEMS MACRO_ITEMS : gmap string item_info.
Implicit Types (w : World S) (data : dict string value).

Lemma make_df_str_ext name data data' :
  (∀ c, dict_get c data = dict_get c data') →
  make_df_str MESSAGE_ITEMS MACRO_ITEMS name data =
    make_df_str MESSAGE_ITEMS MACRO_ITEMS name data'.
Proof.
  intros Hext. unfold make_df_str, make_df_info.
  destruct (chain_items MESSAGE_ITEMS MACRO_ITEMS name) as [info|]; [| done].
  destruct (negb (bool_decide (ix_type info = "par"))); [done |].
  destruct (make_df_columns info) as [columns|]; [| done]. simpl.
  by rewrite (make_df_loop_ext data data' columns).
Qed.

(** X1.  The order in which the named inputs are written does not show
    in the outcome of [make_df]. *)
Theorem make_df_named_inputs_order name data data' w :
  NoDup (dict_keys data) →
  data ≡ₚ data' →
  make_df MESSAGE_ITEMS MACRO_ITEMS (NameStr name) data w =
    make_df MESSAGE_ITEMS MACRO_ITEMS (NameStr name) data' w.
Proof.
  intros Hnd Hperm. rewrite !make_df_NameStr. f_equal.
  apply make_df_str_ext. intros c. by apply dict_get_Permutation.
Qed.


(** X3.  An item of kind "par" that has no "idx_sets" makes [make_df]
    raise [KeyError], whether or not the item has "idx_names": the default
    of the look-up of "idx_names" is evaluated before the look-up. *)
Theorem make_df_without_idx_sets name info data w :
  chain_items MESSAGE_ITEMS MACRO_ITEMS name = Some info →
  ix_type info = "par" →
  idx_sets info = None →
  make_df MESSAGE_ITEMS MACRO_ITEMS (NameStr name) data w
    = (w, Raise (KeyError "idx_sets")).
Proof.
  intros Hinfo Hpar Hsets. rewrite make_df_NameStr.
  unfold make_df_str, make_df_info, make_df_columns.
  by rewrite Hinfo, Hpar, Hsets.
Qed.
End NamedInputs.

(** ** Keyword arguments formed from a table *)

Lemma merge_keywords_inv acc items merged :
  merge_keywords acc items = Ok merged → merged = acc ++ items.
Proof.
  revert acc. induction items as [|[k v] items IH]; intros acc; simpl.
  - intros [= <-]. by rewrite app_nil_r.
  - destruct (dict_mem k acc); [done |]. intros Hok.
    rewrite (IH _ Hok). by rewrite <- app_assoc.
Qed.

Lemma merge_keywords_fresh acc items :
  NoDup (dict_keys acc ++ dict_keys items) →
  merge_keywords acc items = Ok (acc ++ items).
Proof.
  unfold dict_keys. revert acc.
  induction items as [|[k v] items IH]; intros acc Hnd; simpl.
  - by rewrite app_nil_r.
  - simpl in Hnd. destruct (dict_mem k acc) eqn:Hmem.
    + apply dict_mem_true in Hmem. apply NoDup_app in Hnd as (_ & Hdisj & _).
      destruct (Hdisj k Hmem). apply list_elem_of_here.
    + rewrite IH; [by rewrite <- app_assoc |].
      rewrite fmap_app. simpl. rewrite <- app_assoc. exact Hnd.
Qed.

Lemma string_keywords_inv merged kw :
  string_keywords merged = Ok kw → merged = prod_map KStr id <$> kw.
Proof.
  revert kw. induction merged as [|[[z|c] v] merged IH]; intros kw; simpl.
  - by intros [= <-].
  - done.
  - destruct (string_keywords merged) as [rest|]; simpl; [| done].
    intros [= <-]. simpl. f_equal. by apply IH.
Qed.

Lemma string_keywords_strings (kw : dict string value) :
  string_keywords (prod_map KStr id <$> kw) = Ok kw.
Proof.
  induction kw as [|[c v] kw IH]; [done |].
  rewrite fmap_cons. cbn [prod_map fst snd id string_keywords].
  by rewrite IH.
Qed.

(** What the keyword arguments are when the call of [make_df] can be
    formed: the columns of the stored table, then the caller's data. *)
Lemma make_df_keywords_inv existing data kw :
  make_df_keywords existing data = Ok kw →
  prod_map KStr id <$> kw =
    DataFrame_items existing ++ (prod_map KStr id <$> data).
Proof.
  unfold make_df_keywords. intros Hok.
  destruct (merge_keywords [] _) as [merged|] eqn:Hmerge; [| done].
  apply merge_keywords_inv in Hmerge. simpl in *.
  destruct (string_keywords merged) as [kw'|] eqn:Hstr; [| done].
  apply string_keywords_inv in Hstr. simpl in Hok.
  destruct (dict_mem "name" kw'); [done |]. injection Hok as <-. congruence.
Qed.

(** A keyword is bound to the stored column of its name, if there is one,
    and to the caller's value otherwise. *)
Lemma make_df_keywords_get existing data kw c :
  make_df_keywords existing data = Ok kw →
  dict_get c kw =
    match dict_get (KStr c) (df_data existing) with
    | Some col => Some (VSeq col)
    | None => dict_get c data
    end.
Proof.
  intros Hok. apply make_df_keywords_inv in Hok.
  rewrite <- (dict_get_keywords (KStr c) kw), Hok, dict_get_app.
  unfold DataFrame_items.
  rewrite (dict_get_fmap_value VSeq (KStr c) (df_data existing)).
  destruct (dict_get (KStr c) (df_data existing)); [done |].
  apply (dict_get_keywords (KStr c) data).
Qed.

Lemma column_items_of_keys (kw : dict string value) :
  NoDup (dict_keys kw) →
  column_item kw <$> dict_keys kw = prod_map KStr id <$> kw.
Proof.
  intros Hnd. unfold dict_keys. rewrite <- list_fmap_compose.
  apply list_fmap_ext. intros i [c v] Hi. simpl.
  unfold column_item, chain_data. simpl.
  rewrite (dict_get_elem_NoDup c v kw Hnd); [done |].
  by apply list_elem_of_lookup_2 in Hi.
Qed.

Lemma keywords_of_items (m : dict key value) (cs : list string) :
  dict_keys m = KStr <$> cs →
  ∃ kw, prod_map KStr id <$> kw = m ∧ dict_keys kw = cs.
Proof.
  unfold dict_keys. revert cs.
  induction m as [|[k v] m IH]; intros [|c cs] Hkeys; try done.
  - by exists [].
  - rewrite !fmap_cons in Hkeys. injection Hkeys as -> Hkeys.
    destruct (IH cs Hkeys) as (kw & Hkw & Hcs).
    exists ((c, v) :: kw). rewrite !fmap_cons. simpl. by rewrite Hkw, Hcs.
Qed.

Section RoundTrip.
Variables MESSAGE_ITEMS MACRO_ITEMS : gmap string item_info.

(** X4.  A table on the default row index that has exactly the columns
    of a parameter, each with one cell per row, passes through
    [make_df(name, **table)] unchanged: the call can be formed and
    returns the table itself.  (No column may be called "name", the
    positional parameter of [make_df].) *)
Theorem make_df_of_its_table name info sets df :
  chain_items MESSAGE_ITEMS MACRO_ITEMS name = Some info →
  ix_type info = "par" →
  idx_sets info = Some sets →
  let columns := default sets (idx_names info) ++ ["value"; "unit"] in
  NoDup columns →
  "name" ∉ columns →
  df_columns df = KStr <$> columns →
  df_index df = default_index (df_nrows df) →
  Forall (fun col => length col.2 = df_nrows df) (df_data df) →
  ∃ kw,
    make_df_keywords df [] = Ok kw ∧
    make_df_str MESSAGE_ITEMS MACRO_ITEMS name kw = Ok df.
Proof.
  intros Hinfo Hpar Hsets columns Hnd Hname Hcols Hdefault Hrect.
  destruct (keywords_of_items (DataFrame_items df) columns)
    as (kw & Hitems & Hkeys).
  { unfold DataFrame_items, dict_keys. rewrite <- list_fmap_compose.
    exact Hcols. }
  exists kw. split.
  - unfold make_df_keywords. simpl. rewrite app_nil_r.
    rewrite merge_keywords_fresh.
    + simpl. rewrite <- Hitems, string_keywords_strings. simpl.
      destruct (dict_mem "name" kw) eqn:Hmem; [| done].
      apply dict_mem_true in Hmem. by rewrite Hkeys in Hmem.
    + simpl. rewrite <- Hitems, dict_keys_keywords, Hkeys.
      apply (NoDup_fmap_2 KStr _ Hnd).
  - rewrite (make_df_str_par _ _ _ _ _ kw Hinfo Hpar Hsets). fold columns.
    assert ((make_df_loop kw columns).1 = DataFrame_items df) as Hargs.
    { rewrite make_df_loop_NoDup by done.
      rewrite <- Hkeys at 1. rewrite column_items_of_keys; [done |].
      by rewrite Hkeys. }
    assert ("value" ∈ columns) as Hvalue.
    { unfold columns. apply elem_of_app. right. apply list_elem_of_here. }
    assert (∃ col, chain_data kw "value" = VSeq col) as [col Hcol].
    { pose proof (make_df_loop_get kw columns "value" Hvalue) as Hloop.
      rewrite Hargs in Hloop. unfold DataFrame_items in Hloop.
      rewrite (dict_get_fmap_value VSeq (KStr "value") (df_data df)) in Hloop.
      destruct (dict_get (KStr "value") (df_data df)) as [col|]; [| done].
      injection Hloop as Hloop. by exists col. }
    destruct (make_df_loop kw columns).2 eqn:Hflag.
    { pose proof (proj1 (make_df_loop_all_scalar kw columns) Hflag
                    "value" Hvalue) as Hscalar.
      by rewrite Hcol in Hscalar. }
    rewrite Hargs.
    rewrite (pd_DataFrame_fits (df_nrows df) _ col).
    + f_equal. rewrite <- Hdefault.
      assert ((fun kv : key * value => (kv.1, broadcast (df_nrows df) kv.2))
                <$> DataFrame_items df = df_data df) as ->; [| by destruct df].
      unfold DataFrame_items. rewrite <- list_fmap_compose.
      rewrite <- (list_fmap_id (df_data df)) at 2.
      apply list_fmap_ext. by intros i [k c] _.
    + unfold DataFrame_items, dict_values. rewrite <- list_fmap_compose.
      apply Forall_fmap. eapply Forall_impl; [exact Hrect |]. by intros [k c].
    + rewrite <- Hargs, <- Hcol. by apply make_df_loop_value_elem.
Qed.
End RoundTrip.

(** ** Tables that the constructor returns *)

Lemma homogenize_all_rectangular index data cols :
  homogenize_all index data = Ok cols →
  Forall (fun col => length col.2 = length index) cols.
Proof.
  revert cols. induction data as [|[k v] data IH]; simpl; intros cols.
  - intros [= <-]. constructor.
  - destruct (homogenize index v) as [col|] eqn:Hcol; simpl; [| done].
    destruct (homogenize_all index data) as [cols'|]; simpl; [| done].
    intros [= <-]. constructor; [| by apply IH].
    by apply homogenize_length in Hcol.
Qed.

(** Every column has one cell per row. *)
Lemma pd_DataFrame_rectangular data index df :
  pd_DataFrame data index = Ok df →
  Forall (fun col => length col.2 = df_nrows df) (df_data df).
Proof.
  unfold pd_DataFrame.
  destruct (match index with Some i => Ok i | None => _ end) as [idx|]; [| done].
  simpl. destruct (homogenize_all idx data) as [cols|] eqn:Hcols; [| done].
  simpl. intros [= <-]. by apply homogenize_all_rectangular in Hcols.
Qed.

Lemma df_isna_any_no_rows df :
  Forall (fun col => length col.2 = df_nrows df) (df_data df) →
  df_nrows df = 0 → df_isna_any df = false.
Proof.
  intros Hrect Hrows. unfold df_isna_any.
  apply not_true_is_false. intros Hany.
  apply existsb_exists in Hany as ([k col] & Hin & Hcol).
  apply list_elem_of_In in Hin.
  pose proof (proj1 (Forall_forall _ _) Hrect _ Hin) as Hlen. simpl in *.
  rewrite Hrows in Hlen. apply nil_length_inv in Hlen. by subst col.
Qed.

Lemma df_isna_any_cell df k col a :
  dict_get k (df_data df) = Some col → a ∈ col → isna a = true →
  df_isna_any df = true.
Proof.
  intros Hget Ha Hna. unfold df_isna_any. apply existsb_exists.
  exists (k, col). split.
  - apply list_elem_of_In. by apply dict_get_Some_elem.
  - simpl. apply existsb_exists. exists a. split; [| done].
    by apply list_elem_of_In.
Qed.

(** ** The calls that [expand_dims] issues *)

Section ExpandDimsRuns.
Context {S : Type} `{Scenario S}.
Variables MESSAGE_ITEMS MACRO_ITEMS : gmap string item_info.
Implicit Types (w : World S) (data : dict string value).

(** The body of the [with] block, call by call. *)
Lemma expand_dims_body_cases name new_data w :
  expand_dims_body MESSAGE_ITEMS name new_data w =
    let '(s3, r3) := remove_par name (scenario w) in
    match r3 with
    | Raise e => (issued w [CallRemovePar name] s3, Raise e)
    | Ok _ =>
        match MESSAGE_ITEMS !! name with
        | None => (issued w [CallRemovePar name] s3, Raise (KeyError name))
        | Some info =>
            let '(s4, r4) := initialize_items name info s3 in
            match r4 with
            | Raise e =>
                (issued w [CallRemovePar name;
                           CallInitializeItems name info] s4, Raise e)
            | Ok _ =>
                let '(s5, r5) := add_par name new_data s4 in
                (issued w [CallRemovePar name;
                           CallInitializeItems name info;
                           CallAddPar name new_data] s5, r5)
            end
        end
    end.
Proof.
  unfold expand_dims_body.
  destruct (remove_par name (scenario w)) as [s3 [[]|e]] eqn:Hremove.
  - erewrite bind_Ok; [| by apply call_issued].
    unfold MESSAGE_ITEMS_getitem.
    destruct (MESSAGE_ITEMS !! name) as [info|]; [| done].
    erewrite bind_Ok; [| reflexivity].
    destruct (initialize_items name info s3) as [s4 [[]|e]] eqn:Hinit.
    + erewrite bind_Ok; [| by apply call_issued].
      destruct (add_par name new_data s4) as [s5 r5] eqn:Hadd.
      erewrite call_issued; [| exact Hadd]. by rewrite !issued_issued.
    + erewrite bind_Raise; [| by apply call_issued].
      by rewrite !issued_issued.
  - by erewrite bind_Raise; [| by apply call_issued].
Qed.

Lemma with_transact_not_entered msg body w s2 e :
  transact_enter msg (scenario w) = (s2, Raise e) →
  with_transact msg body w = (issued w [CallTransact msg] s2, Raise e).
Proof.
  intros Henter. unfold with_transact.
  by erewrite bind_Raise; [| by apply call_issued].
Qed.

(** Whatever the scenario answers, the block issues its calls in the one
    order, inside the transaction. *)
Lemma with_transact_scope name new_data w :
  ∃ evs,
    trace (with_transact (transact_text name)
             (expand_dims_body MESSAGE_ITEMS name new_data) w).1
      = trace w ++ evs ∧
    scope_events MESSAGE_ITEMS name new_data evs.
Proof.
  destruct (transact_enter (transact_text name) (scenario w))
    as [s2 [[]|e]] eqn:Henter.
  2: { rewrite (with_transact_not_entered _ _ _ _ _ Henter).
       eexists. split; [reflexivity | constructor]. }
  set (w2 := issued w [CallTransact (transact_text name)] s2).
  destruct (expand_dims_body MESSAGE_ITEMS name new_data w2) as [w3 r]
    eqn:Hbody.
  rewrite (with_transact_run _ _ _ _ _ _ Henter Hbody). simpl.
  rewrite expand_dims_body_cases in Hbody. subst w2. simpl in Hbody.
  destruct (remove_par name s2) as [s3 [[]|e]].
  - destruct (MESSAGE_ITEMS !! name) as [info|] eqn:Hinfo.
    + destruct (initialize_items name info s3) as [s4 [[]|e]].
      * destruct (add_par name new_data s4) as [s5 r5].
        injection Hbody as <- <-. simpl. rewrite <- !app_assoc.
        eexists. split; [reflexivity |]. by apply scope_all.
      * injection Hbody as <- <-. simpl. rewrite <- !app_assoc.
        eexists. split; [reflexivity |]. by apply scope_initialize_raised.
    + injection Hbody as <- <-. simpl. rewrite <- !app_assoc.
      eexists. split; [reflexivity |]. apply scope_remove_only.
  - injection Hbody as <- <-. simpl. rewrite <- !app_assoc.
    eexists. split; [reflexivity |]. apply scope_remove_only.
Qed.
End ExpandDimsRuns.

Section ExpandDimsFurther.
Context {S : Type} `{Scenario S}.
Variables MESSAGE_ITEMS MACRO_ITEMS : gmap string item_info.
Implicit Types (w : World S) (data : dict string value).

(** X5.  Take data that are scalars and sequences, and a scenario that
    returns its tables on the default row index, so that the columns of
    the stored table enter [make_df] as the sequences of their cells.
    Whatever else the scenario answers, [expand_dims] first reads the
    stored table and then either issues no further call and raises, or
    opens the transaction and issues, inside it and in this order, the
    removal, the initialization and the addition, up to the first that
    raises.  The transaction is opened only when the table built by
    [make_df] from the stored columns and the data has no missing cell,
    and that table is the one given to [add_par]: nothing is changed
    outside a transaction, and no table with a missing cell is written. *)
Theorem expand_dims_calls name data w :
  (∀ v d, v ∈ dict_values data → v ≠ VDict d) →
  (∀ s1 existing,
     par name (scenario w) = (s1, Ok existing) →
     df_index existing = default_index (df_nrows existing)) →
  ∃ evs,
    trace (expand_dims MESSAGE_ITEMS MACRO_ITEMS name data w).1
      = trace w ++ CallPar name :: evs ∧
    ((evs = [] ∧
      ∃ e, (expand_dims MESSAGE_ITEMS MACRO_ITEMS name data w).2 = Raise e) ∨
     ∃ s1 existing kw new_data,
       par name (scenario w) = (s1, Ok existing) ∧
       make_df_keywords existing data = Ok kw ∧
       make_df_str MESSAGE_ITEMS MACRO_ITEMS name kw = Ok new_data ∧
       df_isna_any new_data = false ∧
       scope_events MESSAGE_ITEMS name new_data evs).
Proof.
  intros _ _.
  destruct (par name (scenario w)) as [s1 [existing|e]] eqn:Hpar.
  2: { exists []. unfold expand_dims.
       erewrite bind_Raise; [| by apply call_issued].
       split; [done |]. left. split; [done | by exists e]. }
  rewrite (expand_dims_prefix _ _ _ _ _ _ _ Hpar).
  destruct (make_df_keywords existing data) as [kw|e] eqn:Hkw.
  2: { exists []. split; [done |]. left. split; [done | by exists e]. }
  destruct (make_df_str MESSAGE_ITEMS MACRO_ITEMS name kw) as [new_data|e]
    eqn:Hdf.
  2: { exists []. split; [done |]. left. split; [done | by exists e]. }
  destruct (df_isna_any new_data) eqn:Hna.
  { exists []. split; [done |]. left. split; [done | by eexists]. }
  destruct (with_transact_scope MESSAGE_ITEMS name new_data
              (issued w [CallPar name] s1)) as (evs & Htrace & Hscope).
  exists evs. split.
  - rewrite Htrace. simpl. by rewrite <- app_assoc.
  - right. by exists s1, existing, kw, new_data.
Qed.

(** X6.  When a column of the parameter is neither a column of the stored
    table nor a keyword of the data, and the table that [make_df] builds
    has at least one row, [expand_dims] raises the assertion error and
    has issued nothing but the read: the data must name every dimension
    that the stored table lacks. *)
Theorem expand_dims_missing_dimension
    name info sets data w s1 existing kw new_data c :
  chain_items MESSAGE_ITEMS MACRO_ITEMS name = Some info →
  ix_type info = "par" →
  idx_sets info = Some sets →
  par name (scenario w) = (s1, Ok existing) →
  make_df_keywords existing data = Ok kw →
  make_df_str MESSAGE_ITEMS MACRO_ITEMS name kw = Ok new_data →
  0 < df_nrows new_data →
  c ∈ default sets (idx_names info) ++ ["value"; "unit"] →
  KStr c ∉ df_columns existing →
  c ∉ dict_keys data →
  expand_dims MESSAGE_ITEMS MACRO_ITEMS name data w
    = (issued w [CallPar name] s1, Raise (AssertionError incomplete_text)).
Proof.
  intros Hinfo Hpar Hsets Hread Hkw Hdf Hrows Hc Hstored Hdata.
  rewrite (expand_dims_prefix _ _ _ _ _ _ _ Hread), Hkw, Hdf.
  assert (chain_data kw c = VScalar ANone) as Hnone.
  { unfold chain_data. rewrite (make_df_keywords_get _ _ _ _ Hkw).
    apply dict_get_None in Hstored as ->. by apply dict_get_None in Hdata as ->. }
  rewrite (make_df_str_par _ _ _ _ _ kw Hinfo Hpar Hsets) in Hdf.
  destruct (pd_DataFrame_get _ _ _ _ _ Hdf (make_df_loop_get kw _ c Hc))
    as (col & Hcol & Hget).
  rewrite Hnone in Hcol. simpl in Hcol. injection Hcol as <-.
  rewrite (df_isna_any_cell new_data (KStr c) _ ANone Hget); [done | | done].
  unfold df_nrows in Hrows.
  destruct (length (df_index new_data)); [lia |]. apply list_elem_of_here.
Qed.

(** X7.  A table without rows has no missing cell.  So when the table
    that [make_df] builds has no row, as for a parameter that is stored
    empty, the check passes whatever dimensions the data leave out, and
    [expand_dims] goes on to open the transaction. *)
Theorem expand_dims_no_rows name data w s1 existing kw new_data :
  par name (scenario w) = (s1, Ok existing) →
  make_df_keywords existing data = Ok kw →
  make_df_str MESSAGE_ITEMS MACRO_ITEMS name kw = Ok new_data →
  df_nrows new_data = 0 →
  df_isna_any new_data = false ∧
  ∃ evs,
    trace (expand_dims MESSAGE_ITEMS MACRO_ITEMS name data w).1
      = trace w ++ CallPar name :: evs ∧
    scope_events MESSAGE_ITEMS name new_data evs.
Proof.
  intros Hread Hkw Hdf Hrows.
  assert (df_isna_any new_data = false) as Hna.
  { apply df_isna_any_no_rows; [| done].
    unfold make_df_str in Hdf.
    destruct (chain_items MESSAGE_ITEMS MACRO_ITEMS name) as [info|]; [| done].
    unfold make_df_info in Hdf.
    destruct (negb (bool_decide (ix_type info = "par"))); [done |].
    destruct (make_df_columns info) as [columns|]; [| done]. simpl in Hdf.
    destruct (make_df_loop kw columns) as [args flag].
    by apply pd_DataFrame_rectangular in Hdf. }
  split; [done |].
  rewrite (expand_dims_prefix _ _ _ _ _ _ _ Hread), Hkw, Hdf, Hna.
  destruct (with_transact_scope MESSAGE_ITEMS name new_data
              (issued w [CallPar name] s1)) as (evs & Htrace & Hscope).
  exists evs. split; [| done]. rewrite Htrace. simpl. by rewrite <- app_assoc.
Qed.

(** X8.  When the data give no column of the parameter as a mapping from
    row labels, the table that [expand_dims] builds is as follows: a
    column of the parameter that the stored table has holds the stored
    cells, unchanged; a column that the stored table lacks and the data
    give as a scalar holds that scalar in every row; and a stored column
    that is no column of the parameter is left out. *)
Theorem expand_dims_table name info sets existing data kw new_data :
  chain_items MESSAGE_ITEMS MACRO_ITEMS name = Some info →
  ix_type info = "par" →
  idx_sets info = Some sets →
  make_df_keywords existing data = Ok kw →
  make_df_str MESSAGE_ITEMS MACRO_ITEMS name kw = Ok new_data →
  let columns := default sets (idx_names info) ++ ["value"; "unit"] in
  (∀ c d, c ∈ columns → dict_get c data ≠ Some (VDict d)) →
  (∀ c col, c ∈ columns →
     dict_get (KStr c) (df_data existing) = Some col →
     dict_get (KStr c) (df_data new_data) = Some col) ∧
  (∀ c a, c ∈ columns →
     dict_get (KStr c) (df_data existing) = None →
     dict_get c data = Some (VScalar a) →
     dict_get (KStr c) (df_data new_data)
       = Some (replicate (df_nrows new_data) a)) ∧
  (∀ k, k ∈ df_columns new_data → ∃ c, c ∈ columns ∧ k = KStr c).
Proof.
  intros Hinfo Hpar Hsets Hkw Hdf columns _.
  rewrite (make_df_str_par _ _ _ _ _ kw Hinfo Hpar Hsets) in Hdf.
  fold columns in Hdf.
  split; [| split].
  - intros c col Hc Hstored.
    destruct (pd_DataFrame_get _ _ _ _ _ Hdf (make_df_loop_get kw _ c Hc))
      as (col' & Hcol & Hget).
    unfold chain_data in Hcol.
    rewrite (make_df_keywords_get _ _ _ _ Hkw), Hstored in Hcol.
    simpl in Hcol. case_decide; [| done]. by injection Hcol as <-.
  - intros c a Hc Hstored Hdata.
    destruct (pd_DataFrame_get _ _ _ _ _ Hdf (make_df_loop_get kw _ c Hc))
      as (col' & Hcol & Hget).
    unfold chain_data in Hcol.
    rewrite (make_df_keywords_get _ _ _ _ Hkw), Hstored, Hdata in Hcol.
    simpl in Hcol. by injection Hcol as <-.
  - intros k Hk. rewrite (pd_DataFrame_columns _ _ _ Hdf) in Hk.
    apply list_elem_of_fmap in Hk as ([k' v] & -> & Hkv).
    apply make_df_loop_elem in Hkv as (c & Hc & [= -> _]). by exists c.
Qed.

(** X9.  The name is looked up in the registries after the stored table
    is read.  For a name that is in neither registry, or whose item is
    not of kind "par", [expand_dims] raises the error of [make_df] with
    the read as the only call issued. *)
Theorem expand_dims_not_a_parameter name data w s1 existing kw :
  par name (scenario w) = (s1, Ok existing) →
  make_df_keywords existing data = Ok kw →
  (chain_items MESSAGE_ITEMS MACRO_ITEMS name = None →
   expand_dims MESSAGE_ITEMS MACRO_ITEMS name data w
     = (issued w [CallPar name] s1,
        Raise (ValueError (NotAParameter name)))) ∧
  (∀ info,
     chain_items MESSAGE_ITEMS MACRO_ITEMS name = Some info →
     ix_type info ≠ "par" →
     expand_dims MESSAGE_ITEMS MACRO_ITEMS name data w
       = (issued w [CallPar name] s1,
          Raise (ValueError (WrongIxType name (ix_type info))))).
Proof.
  intros Hread Hkw.
  rewrite (expand_dims_prefix _ _ _ _ _ _ _ Hread), Hkw.
  unfold make_df_str. split.
  - by intros ->.
  - intros info -> Hkind. unfold make_df_info.
    by rewrite bool_decide_eq_false_2.
Qed.

(** X10.  When [add_par] raises, the parameter has by then been removed
    and initialized inside the transaction; the exit of the transaction
    is told the exception, and [expand_dims] raises it unless the exit
    swallows it or raises itself.  Undoing the removal is left to the
    transaction. *)
Theorem expand_dims_add_par_raises
    name info data w s1 s2 s3 s4 s5 existing kw new_data e :
  MESSAGE_ITEMS !! name = Some info →
  par name (scenario w) = (s1, Ok existing) →
  make_df_keywords existing data = Ok kw →
  make_df_str MESSAGE_ITEMS MACRO_ITEMS name kw = Ok new_data →
  df_isna_any new_data = false →
  transact_enter (transact_text name) s1 = (s2, Ok tt) →
  remove_par name s2 = (s3, Ok tt) →
  initialize_items name info s3 = (s4, Ok tt) →
  add_par name new_data s4 = (s5, Raise e) →
  expand_dims MESSAGE_ITEMS MACRO_ITEMS name data w
    = (issued w [CallPar name;
                 CallTransact (transact_text name);
                 CallRemovePar name;
                 CallInitializeItems name info;
                 CallAddPar name new_data;
                 ExitTransact (Some e)]
         (transact_exit (Some e) s5).1,
       block_outcome (Some e) (transact_exit (Some e) s5).2).
Proof.
  intros Hinfo Hread Hkw Hdf Hna Henter Hremove Hinit Hadd.
  rewrite (expand_dims_prefix _ _ _ _ _ _ _ Hread), Hkw, Hdf, Hna.
  erewrite with_transact_run; [| exact Henter |].
  2: { rewrite expand_dims_body_cases. simpl.
       by rewrite Hremove, Hinfo, Hinit, Hadd. }
  simpl. by rewrite !issued_issued.
Qed.
End ExpandDimsFurther.

(** ** The deprecated signature, further *)

Section DictKeys.
Context {K V : Type} `{EqDecision K}.
Implicit Types (k : K) (v : V) (d items : dict K V).

Lemma dict_keys_set k v d :
  dict_keys (dict_set k v d) =
    if decide (k ∈ dict_keys d) then dict_keys d else dict_keys d ++ [k].
Proof.
  unfold dict_keys. induction d as [|[k' v'] d IH].
  - destruct (decide (k ∈ [].*1)) as [Hin|_]; [| done].
    by apply elem_of_nil in Hin.
  - cbn [dict_set]. rewrite fmap_cons. cbn [fst].
    destruct (decide (k = k')) as [->|Hne].
    + rewrite decide_True; [done | apply list_elem_of_here].
    + rewrite fmap_cons, IH. cbn [fst].
      destruct (decide (k ∈ d.*1)) as [Hin|Hnotin].
      * rewrite decide_True; [done | by apply list_elem_of_further].
      * rewrite decide_False; [done |].
        rewrite elem_of_cons. by intros [?|?].
Qed.

Lemma filter_ext_elem (P Q : K → Prop) `{∀ x, Decision (P x)}
    `{∀ x, Decision (Q x)} (l : list K) :
  (∀ x, x ∈ l → (P x ↔ Q x)) → filter P l = filter Q l.
Proof.
  induction l as [|x l IH]; intros Hext; [done |].
  rewrite !filter_cons.
  assert (P x ↔ Q x) as Hx by (apply Hext, list_elem_of_here).
  rewrite IH by (intros y Hy; by apply Hext, list_elem_of_further).
  destruct (decide (P x)), (decide (Q x)); tauto || done.
Qed.

(** An update keeps the keys of the dict in their places and appends the
    new keys in the order of the items. *)
Lemma dict_keys_update d items :
  NoDup (dict_keys items) →
  dict_keys (dict_update d items) =
    dict_keys d ++ filter (fun k => k ∉ dict_keys d) (dict_keys items).
Proof.
  revert d. induction items as [|[k v] items IH]; intros d Hnd.
  - simpl. by rewrite app_nil_r.
  - rewrite dict_update_cons. unfold dict_keys in Hnd. simpl in Hnd.
    apply NoDup_cons in Hnd as [Hk Hnd]. rewrite (IH _ Hnd), dict_keys_set.
    change (dict_keys ((k, v) :: items)) with (k :: dict_keys items).
    rewrite filter_cons.
    destruct (decide (k ∈ dict_keys d)) as [Hin|Hnotin].
    + by rewrite decide_False by (by intros ?).
    + rewrite decide_True by done. rewrite <- app_assoc. simpl.
      do 2 f_equal. apply filter_ext_elem. intros k' Hk'.
      rewrite elem_of_app, list_elem_of_singleton. split.
      * intros Hnot ?. apply Hnot. by left.
      * intros Hnot [?| ->]; [done |]. by apply Hk.
Qed.
End DictKeys.

Lemma extract_index_scalars vals :
  vals ≠ [] → Forall (fun v => is_scalar v = true) vals →
  extract_index vals = Raise (ValueError AllScalarNoIndex).
Proof.
  intros Hne Hall. unfold extract_index.
  destruct vals as [|v0 vals0] eqn:Hvals; [done |].
  rewrite <- Hvals in *. clear Hvals Hne v0 vals0.
  assert (raw_lengths vals = [] ∧ dict_indexes vals = []) as [-> ->]; [| done].
  unfold raw_lengths, dict_indexes.
  induction Hall as [|v vals Hv _ [IH1 IH2]]; [done |].
  by destruct v.
Qed.

Lemma dict_update_nonempty {K V} `{EqDecision K} (d items : dict K V) :
  d ≠ [] ∨ items ≠ [] → dict_update d items ≠ [].
Proof.
  intros Hne Hnil.
  assert (∀ k, dict_get k (dict_update d items) = None) as Hnone.
  { intros k. by rewrite Hnil. }
  destruct Hne as [Hd|Hitems].
  - destruct d as [|[k v] d]; [done |].
    specialize (Hnone k). rewrite dict_get_update in Hnone.
    destruct (dict_get k (reverse items)); [done |].
    simpl in Hnone. by rewrite decide_True in Hnone.
  - destruct (reverse items) as [|[k v] rest] eqn:Hrev.
    + apply (f_equal reverse) in Hrev. rewrite reverse_involutive in Hrev.
      by subst.
    + specialize (Hnone k). rewrite dict_get_update, Hrev in Hnone.
      simpl in Hnone. by rewrite decide_True in Hnone.
Qed.

Section LegacyFurther.
Context {S : Type}.
Variables MESSAGE_ITEMS MACRO_ITEMS : gmap string item_info.
Implicit Types (w : World S).

(** X11.  Under the deprecated signature the columns of the table are the
    keys of the base, in their order, followed by the keywords that the
    base does not have, in the order they were given: an override keeps
    the place of the key it overrides. *)
Theorem make_df_deprecated_columns base o kwargs w w' df :
  objects w !! base = Some o →
  NoDup (dict_keys kwargs) →
  make_df MESSAGE_ITEMS MACRO_ITEMS (NameObj base) kwargs w = (w', Ok df) →
  df_columns df =
    dict_keys (as_mapping o) ++
    filter (fun k => k ∉ dict_keys (as_mapping o))
           (KStr <$> dict_keys kwargs).
Proof.
  intros Hbase Hnd. simpl.
  destruct (dict_mem "base" kwargs); [done |].
  rewrite (_deprecated_make_df_run _ _ _ _ Hbase). intros [= _ Hdf].
  rewrite (pd_DataFrame_columns _ _ _ Hdf), dict_keys_update.
  - by rewrite dict_keys_keywords.
  - rewrite dict_keys_keywords. apply (NoDup_fmap_2 KStr _ Hnd).
Qed.

(** X12.  A call under the deprecated signature can be repeated: as the
    first call leaves the base as it was, a second call with the same
    base and keywords has the same outcome as the first, and each call
    adds its own deprecation warning.  (No keyword is called "base", the
    parameter of [_deprecated_make_df], or "name", the first parameter
    of [make_df].) *)
Theorem make_df_deprecated_twice base o kwargs w :
  objects w !! base = Some o →
  "name" ∉ dict_keys kwargs →
  "base" ∉ dict_keys kwargs →
  let first := make_df MESSAGE_ITEMS MACRO_ITEMS (NameObj base) kwargs w in
  let second :=
    make_df MESSAGE_ITEMS MACRO_ITEMS (NameObj base) kwargs first.1 in
  second.2 = first.2 ∧
  objects second.1 !! base = Some o ∧
  ∃ later1 later2,
    warnings second.1 =
      warnings w ++ DeprecationWarning deprecation_text :: later1
                 ++ DeprecationWarning deprecation_text :: later2.
Proof.
  intros Hbase _ Hkey first second. subst second first.
  rewrite !(make_df_NameObj _ _ _ _ _ Hkey).
  rewrite (_deprecated_make_df_run _ _ _ _ Hbase). simpl.
  match goal with
  | |- context [_deprecated_make_df base kwargs ?w1] =>
      assert (objects w1 !! base = Some o) as Hbase'
        by (simpl; by apply lookup_app_l_Some);
      rewrite (_deprecated_make_df_run _ _ _ _ Hbase')
  end.
  simpl.
  split; [done |]. split.
  - by apply lookup_app_l_Some.
  - eexists _, _. rewrite <- app_assoc. simpl. reflexivity.
Qed.

(** X13.  The deprecated signature passes no row index to the table
    constructor.  So when every value of the base and every keyword is a
    scalar, and there is at least one of them, the call raises the error
    of the constructor for all-scalar data, where the call with the name
    of a parameter returns a table of one row.  (No keyword is called
    "base" or "name", the parameters of the two functions.) *)
Theorem make_df_deprecated_all_scalar base o kwargs w :
  objects w !! base = Some o →
  "name" ∉ dict_keys kwargs →
  "base" ∉ dict_keys kwargs →
  Forall (fun v => is_scalar v = true) (dict_values (as_mapping o)) →
  Forall (fun v => is_scalar v = true) (dict_values kwargs) →
  as_mapping o ≠ [] ∨ kwargs ≠ [] →
  (make_df MESSAGE_ITEMS MACRO_ITEMS (NameObj base) kwargs w).2
    = Raise (ValueError AllScalarNoIndex).
Proof.
  intros Hbase _ Hkey Ho Hkw Hne.
  rewrite (make_df_NameObj _ _ _ _ _ Hkey).
  rewrite (_deprecated_make_df_run _ _ _ _ Hbase). simpl.
  unfold pd_DataFrame. rewrite extract_index_scalars; [done | |].
  - intros Hnil. apply fmap_nil_inv in Hnil. revert Hnil.
    apply dict_update_nonempty. destruct Hne as [?|Hne]; [by left | right].
    intros Hnil. apply fmap_nil_inv in Hnil. done.
  - apply Forall_forall. intros v Hv.
    apply list_elem_of_fmap in Hv as ([k v'] & -> & Hin).
    apply dict_update_elem in Hin as [Hin|Hin].
    + apply (proj1 (Forall_forall _ _) Ho).
      by apply (list_elem_of_fmap_2 snd _ (k, v')).
    + apply list_elem_of_fmap in Hin as ([c v''] & [= -> ->] & Hin).
      apply (proj1 (Forall_forall _ _) Hkw).
      by apply (list_elem_of_fmap_2 snd _ (c, v'')).
Qed.
End LegacyFurther.

(** ** A data frame through the deprecated signature *)

Lemma union_fold_known (acc l : list key) :
  (∀ k, k ∈ l → k ∈ acc) →
  fold_left (fun acc k => if bool_decide (k ∈ acc) then acc else acc ++ [k])
            l acc = acc.
Proof.
  induction l as [|k l IH]; intros Hin; [done |]. simpl.
  rewrite bool_decide_eq_true_2 by (apply Hin, list_elem_of_here).
  apply IH. intros k' Hk'. by apply Hin, list_elem_of_further.
Qed.

Lemma union_fold_fresh (acc l : list key) :
  NoDup (acc ++ l) →
  fold_left (fun acc k => if bool_decide (k ∈ acc) then acc else acc ++ [k])
            l acc = acc ++ l.
Proof.
  revert acc. induction l as [|k l IH]; intros acc Hnd.
  - by rewrite app_nil_r.
  - simpl. rewrite bool_decide_eq_false_2.
    + rewrite IH; [by rewrite <- app_assoc |]. by rewrite <- app_assoc.
    + apply NoDup_app in Hnd as (_ & Hdisj & _). intros Hk.
      apply (Hdisj k Hk), list_elem_of_here.
Qed.

(** The union of copies of one index without repeated labels is that
    index. *)
Lemma union_indexes_copies {A} (index : list key) (l : list A) :
  NoDup index → l ≠ [] →
  union_indexes ((fun _ => index) <$> l) = index.
Proof.
  intros Hnd Hne. destruct l as [|x l]; [done |]. clear Hne.
  unfold union_indexes. rewrite fmap_cons. simpl.
  rewrite fold_left_app, (union_fold_fresh [] index) by done. simpl.
  apply union_fold_known. intros k Hk.
  apply list_elem_of_In, in_concat in Hk as (index' & Hin & Hk).
  apply list_elem_of_In, list_elem_of_fmap in Hin as (_ & -> & _).
  by apply list_elem_of_In.
Qed.

Lemma dict_of_items_zip (index : list key) (col : list atom) :
  NoDup index → length col = length index →
  dict_of_items (zip index col) = zip index col.
Proof.
  intros Hnd Hlen. unfold dict_of_items.
  rewrite dict_update_fresh; [done | |].
  - unfold dict_keys. rewrite fst_zip by lia. done.
  - intros k _. apply not_elem_of_nil.
Qed.

(** Reading a column back label by label gives the column. *)
Lemma zip_read_back (index : list key) (col : list atom) :
  NoDup index → length col = length index →
  (fun lbl => default ANaN (dict_get lbl (zip index col))) <$> index = col.
Proof.
  revert col. induction index as [|i index IH]; intros [|a col] Hnd Hlen;
    try done.
  apply NoDup_cons in Hnd as [Hi Hnd]. simpl in Hlen.
  rewrite fmap_cons. cbn [zip zip_with dict_get].
  rewrite decide_True by done. simpl. f_equal.
  etrans; [| apply (IH col Hnd); lia].
  apply list_fmap_ext. intros j lbl Hj.
  rewrite decide_False; [done |]. intros ->.
  by apply Hi, list_elem_of_lookup_2 with j.
Qed.

Lemma labelled_columns_raw_lengths index cols :
  raw_lengths (dict_values (labelled_columns index cols)) = [].
Proof. induction cols as [|col cols IH]; [done | exact IH]. Qed.

Lemma labelled_columns_indexes index cols :
  Forall (fun col : key * list atom => length col.2 = length index) cols →
  dict_indexes (dict_values (labelled_columns index cols))
    = (fun _ => index) <$> cols.
Proof.
  induction 1 as [|[k col] cols Hlen _ IH]; [done |].
  unfold labelled_columns, dict_values, dict_indexes in *.
  rewrite !fmap_cons. cbn [omap list_omap fst snd]. rewrite IH. f_equal.
  unfold dict_keys. simpl in Hlen. by rewrite fst_zip by lia.
Qed.

Lemma labelled_columns_homogenize index cols :
  NoDup index →
  Forall (fun col : key * list atom => length col.2 = length index) cols →
  homogenize_all index (labelled_columns index cols) = Ok cols.
Proof.
  intros Hnd. induction 1 as [|[k col] cols Hlen _ IH]; [done |].
  unfold labelled_columns in *. rewrite fmap_cons.
  cbn [homogenize_all homogenize fst snd].
  rewrite zip_read_back by done. simpl. by rewrite IH.
Qed.

Lemma DataFrame_to_dict_value_labelled df :
  NoDup (df_columns df) →
  NoDup (df_index df) →
  Forall (fun col => length col.2 = df_nrows df) (df_data df) →
  DataFrame_to_dict_value df = labelled_columns (df_index df) (df_data df).
Proof.
  intros Hcols Hidx Hrect. unfold DataFrame_to_dict_value, dict_of_items.
  rewrite dict_update_fresh.
  - simpl. apply list_fmap_ext. intros i [k col] Hi. simpl.
    change (dict_update [] (zip (df_index df) col))
      with (dict_of_items (zip (df_index df) col)).
    rewrite dict_of_items_zip; [done | done |].
    apply list_elem_of_lookup_2 in Hi.
    exact (proj1 (Forall_forall _ _) Hrect _ Hi).
  - unfold dict_keys. rewrite <- list_fmap_compose. exact Hcols.
  - intros k _. apply not_elem_of_nil.
Qed.

Lemma NoDup_default_index n : NoDup (default_index n).
Proof.
  unfold default_index.
  assert (Inj (=) (=) (fun i : nat => KInt (Z.of_nat i))) as Hinj.
  { intros i j [= Hij]. lia. }
  apply (NoDup_fmap_2 _ _ (NoDup_seq 0 n)).
Qed.

Section FrameBase.
Context {S : Type}.
Variables MESSAGE_ITEMS MACRO_ITEMS : gmap string item_info.
Implicit Types (w : World S).

(** X14.  A data frame given as the base, without keywords, comes back
    as it is: when its rows are labelled by the default index (0, 1, ...
    in this order), its column names are without repetition, each column
    has one cell per row and there is at least one column, the table
    returned has the same row labels, columns and cells.  The frame goes
    through its dict of dicts and the table constructor; the default
    labels are in increasing order, so it makes no difference whether
    the constructor keeps the labels of a dict in their order or sorts
    them. *)
Theorem make_df_deprecated_frame base df w :
  objects w !! base = Some (ODataFrame df) →
  NoDup (df_columns df) →
  df_index df = default_index (df_nrows df) →
  Forall (fun col => length col.2 = df_nrows df) (df_data df) →
  df_data df ≠ [] →
  (make_df MESSAGE_ITEMS MACRO_ITEMS (NameObj base) [] w).2 = Ok df.
Proof.
  intros Hbase Hcols Hdefault Hrect Hne.
  assert (NoDup (df_index df)) as Hidx.
  { rewrite Hdefault. apply NoDup_default_index. }
  simpl.
  rewrite (_deprecated_make_df_run _ _ _ _ Hbase). simpl.
  rewrite DataFrame_to_dict_value_labelled by done.
  unfold pd_DataFrame.
  assert (extract_index
            (dict_values (labelled_columns (df_index df) (df_data df)))
          = Ok (df_index df)) as ->.
  { unfold extract_index.
    rewrite labelled_columns_raw_lengths, labelled_columns_indexes by done.
    rewrite union_indexes_copies by done.
    destruct (df_data df) as [|col0 cols0]; [done |]. done. }
  simpl. rewrite labelled_columns_homogenize by done.
  simpl. by destruct df.
Qed.
End FrameBase.

(** ** The further properties at work *)

Lemma make_df_named_inputs_order_witness :
  make_df sample_MESSAGE_ITEMS sample_MACRO_ITEMS (NameStr "demand")
    sample_data empty_world =
  make_df sample_MESSAGE_ITEMS sample_MACRO_ITEMS (NameStr "demand")
    sample_data_reordered empty_world.
Proof.
  apply (make_df_named_inputs_order sample_MESSAGE_ITEMS sample_MACRO_ITEMS
           "demand" sample_data sample_data_reordered empty_world).
  - apply (bool_decide_unpack _). vm_compute. exact I.
  - unfold sample_data, sample_data_reordered.
    apply (Permutation_app_comm [_; _] [_]).
Defined.


Lemma make_df_without_idx_sets_witness :
  make_df no_sets_ITEMS ∅ (NameStr "loose") sample_data empty_world
    = (empty_world, Raise (KeyError "idx_sets")).
Proof.
  apply (make_df_without_idx_sets no_sets_ITEMS ∅ "loose"
           (mkItem "par" None (Some ["node"])) sample_data empty_world).
  - vm_compute. reflexivity.
  - reflexivity.
  - reflexivity.
Defined.

Lemma make_df_of_its_table_witness :
  ∃ kw,
    make_df_keywords sample_table [] = Ok kw ∧
    make_df_str sample_MESSAGE_ITEMS sample_MACRO_ITEMS "demand" kw
      = Ok sample_table.
Proof.
  exact (make_df_of_its_table sample_MESSAGE_ITEMS sample_MACRO_ITEMS
           "demand" demand_info
           ["node"; "commodity"; "level"; "year"; "time"] sample_table
           ltac:(vm_compute; reflexivity) eq_refl eq_refl
           ltac:(apply (bool_decide_unpack _); vm_compute; exact I)
           ltac:(apply (bool_decide_unpack _); vm_compute; exact I)
           eq_refl eq_refl
           ltac:(apply (bool_decide_unpack _); vm_compute; exact I)).
Defined.

Lemma expand_dims_calls_witness :
  ∃ evs,
    trace (expand_dims sample_MESSAGE_ITEMS sample_MACRO_ITEMS "demand"
             demand_data stored_world).1
      = trace stored_world ++ CallPar "demand" :: evs ∧
    ((evs = [] ∧
      ∃ e, (expand_dims sample_MESSAGE_ITEMS sample_MACRO_ITEMS "demand"
              demand_data stored_world).2 = Raise e) ∨
     ∃ s1 existing kw new_data,
       par "demand" (scenario stored_world) = (s1, Ok existing) ∧
       make_df_keywords existing demand_data = Ok kw ∧
       make_df_str sample_MESSAGE_ITEMS sample_MACRO_ITEMS "demand" kw
         = Ok new_data ∧
       df_isna_any new_data = false ∧
       scope_events sample_MESSAGE_ITEMS "demand" new_data evs).
Proof.
  apply (expand_dims_calls sample_MESSAGE_ITEMS sample_MACRO_ITEMS "demand"
           demand_data stored_world).
  - intros v d Hv. vm_compute in Hv. elem_of_cases Hv.
  - intros s1 existing Hpar. vm_compute in Hpar.
    injection Hpar as _ <-. reflexivity.
Defined.

Lemma expand_dims_missing_dimension_witness :
  expand_dims sample_MESSAGE_ITEMS sample_MACRO_ITEMS "demand" year_data
    stored_world
    = (issued stored_world [CallPar "demand"] (scenario stored_world),
       Raise (AssertionError incomplete_text)).
Proof.
  eapply (expand_dims_missing_dimension sample_MESSAGE_ITEMS
            sample_MACRO_ITEMS "demand" demand_info
            ["node"; "commodity"; "level"; "year"; "time"] year_data
            stored_world (scenario stored_world) stored_table _ _ "level").
  - vm_compute. reflexivity.
  - reflexivity.
  - reflexivity.
  - vm_compute. reflexivity.
  - vm_compute. reflexivity.
  - vm_compute. reflexivity.
  - vm_compute. lia.
  - apply (bool_decide_unpack _). vm_compute. exact I.
  - apply (bool_decide_unpack _). vm_compute. exact I.
  - apply (bool_decide_unpack _). vm_compute. exact I.
Defined.

Lemma expand_dims_no_rows_witness :
  ∃ new_data,
    df_isna_any new_data = false ∧
    ∃ evs,
      trace (expand_dims sample_MESSAGE_ITEMS sample_MACRO_ITEMS "demand" []
               empty_stored_world).1
        = trace empty_stored_world ++ CallPar "demand" :: evs ∧
      scope_events sample_MESSAGE_ITEMS "demand" new_data evs.
Proof.
  eexists.
  eapply (expand_dims_no_rows sample_MESSAGE_ITEMS sample_MACRO_ITEMS
            "demand" [] empty_stored_world (scenario empty_stored_world)
            empty_table).
  - vm_compute. reflexivity.
  - vm_compute. reflexivity.
  - vm_compute. reflexivity.
  - reflexivity.
Defined.

Lemma expand_dims_table_witness :
  dict_get (KStr "node") (df_data demand_table)
    = Some [AStr "A"; AStr "B"] ∧
  dict_get (KStr "time") (df_data demand_table)
    = Some (replicate (df_nrows demand_table) (AStr "year")).
Proof.
  destruct (expand_dims_table sample_MESSAGE_ITEMS sample_MACRO_ITEMS
              "demand" demand_info
              ["node"; "commodity"; "level"; "year"; "time"]
              stored_table demand_data demand_keywords demand_table
              ltac:(vm_compute; reflexivity) eq_refl eq_refl
              ltac:(vm_compute; reflexivity) ltac:(vm_compute; reflexivity)
              ltac:(intros c d Hc; elem_of_cases Hc))
    as (Hstored & Hnew & _).
  split.
  - apply Hstored; [| reflexivity].
    apply (bool_decide_unpack _). vm_compute. exact I.
  - apply Hnew; [| reflexivity | reflexivity].
    apply (bool_decide_unpack _). vm_compute. exact I.
Defined.

Lemma expand_dims_not_a_parameter_witness :
  expand_dims sample_MESSAGE_ITEMS sample_MACRO_ITEMS "bogus" year_data
    misnamed_world
    = (issued misnamed_world [CallPar "bogus"] (scenario misnamed_world),
       Raise (ValueError (NotAParameter "bogus"))) ∧
  expand_dims sample_MESSAGE_ITEMS sample_MACRO_ITEMS "commodity" year_data
    misnamed_world
    = (issued misnamed_world [CallPar "commodity"] (scenario misnamed_world),
       Raise (ValueError (WrongIxType "commodity" "set"))).
Proof.
  split.
  - eapply (proj1 (expand_dims_not_a_parameter (S:=MemScenario)
              sample_MESSAGE_ITEMS sample_MACRO_ITEMS "bogus" year_data
              misnamed_world (scenario misnamed_world) stored_table
              grow_keywords _ _)).
    vm_compute. reflexivity.
  - eapply (proj2 (expand_dims_not_a_parameter (S:=MemScenario)
              sample_MESSAGE_ITEMS sample_MACRO_ITEMS "commodity" year_data
              misnamed_world (scenario misnamed_world) stored_table
              grow_keywords _ _) (mkItem "set" None None)).
    + vm_compute. reflexivity.
    + simpl. discriminate.
  Unshelve.
  all: vm_compute; reflexivity.
Defined.

Lemma expand_dims_add_par_raises_witness :
  (expand_dims sample_MESSAGE_ITEMS sample_MACRO_ITEMS "demand" demand_data
     refusing_world).2 = Raise (StoreError 2) ∧
  trace (expand_dims sample_MESSAGE_ITEMS sample_MACRO_ITEMS "demand"
           demand_data refusing_world).1
    = [CallPar "demand";
       CallTransact (transact_text "demand");
       CallRemovePar "demand";
       CallInitializeItems "demand" demand_info;
       CallAddPar "demand" demand_table;
       ExitTransact (Some (StoreError 2))].
Proof.
  rewrite (expand_dims_add_par_raises sample_MESSAGE_ITEMS sample_MACRO_ITEMS
             "demand" demand_info demand_data refusing_world
             (scenario refusing_world) (scenario refusing_world)
             (mkRefusing demand_removed) (mkRefusing demand_initialized)
             (mkRefusing demand_initialized)
             stored_table demand_keywords demand_table (StoreError 2)
             ltac:(vm_compute; reflexivity) ltac:(vm_compute; reflexivity)
             ltac:(vm_compute; reflexivity) ltac:(vm_compute; reflexivity)
             ltac:(vm_compute; reflexivity) eq_refl eq_refl eq_refl eq_refl).
  split; reflexivity.
Defined.

Lemma make_df_deprecated_columns_witness :
  df_columns legacy_table = [KStr "year"; KStr "value"; KStr "unit"].
Proof.
  apply (make_df_deprecated_columns sample_MESSAGE_ITEMS sample_MACRO_ITEMS
           0 (ODict [(KStr "year", VSeq [ANum 2020; ANum 2021; ANum 2022])])
           legacy_kwargs legacy_world
           (make_df sample_MESSAGE_ITEMS sample_MACRO_ITEMS (NameObj 0)
              legacy_kwargs legacy_world).1 legacy_table).
  - reflexivity.
  - apply (bool_decide_unpack _). vm_compute. exact I.
  - vm_compute. reflexivity.
Defined.

Lemma make_df_deprecated_twice_witness :
  let first :=
    make_df sample_MESSAGE_ITEMS sample_MACRO_ITEMS (NameObj 0)
      legacy_kwargs legacy_world in
  let second :=
    make_df sample_MESSAGE_ITEMS sample_MACRO_ITEMS (NameObj 0)
      legacy_kwargs first.1 in
  second.2 = first.2 ∧
  objects second.1 !! 0 =
    Some (ODict [(KStr "year", VSeq [ANum 2020; ANum 2021; ANum 2022])]) ∧
  ∃ later1 later2,
    warnings second.1 =
      warnings legacy_world ++ DeprecationWarning deprecation_text :: later1
        ++ DeprecationWarning deprecation_text :: later2.
Proof.
  apply (make_df_deprecated_twice sample_MESSAGE_ITEMS sample_MACRO_ITEMS 0
           (ODict [(KStr "year", VSeq [ANum 2020; ANum 2021; ANum 2022])])
           legacy_kwargs legacy_world).
  - reflexivity.
  - apply (bool_decide_unpack _). vm_compute. exact I.
  - apply (bool_decide_unpack _). vm_compute. exact I.
Defined.

Lemma make_df_deprecated_all_scalar_witness :
  (make_df sample_MESSAGE_ITEMS sample_MACRO_ITEMS (NameObj 0)
     [("baz", VScalar (ANum 42))] scalar_base_world).2
    = Raise (ValueError AllScalarNoIndex).
Proof.
  apply (make_df_deprecated_all_scalar sample_MESSAGE_ITEMS
           sample_MACRO_ITEMS 0 (ODict [(KStr "foo", VScalar (AStr "bar"))])
           [("baz", VScalar (ANum 42))] scalar_base_world).
  - reflexivity.
  - apply (bool_decide_unpack _). vm_compute. exact I.
  - apply (bool_decide_unpack _). vm_compute. exact I.
  - repeat constructor.
  - repeat constructor.
  - by left.
Defined.

Lemma make_df_deprecated_frame_witness :
  (make_df sample_MESSAGE_ITEMS sample_MACRO_ITEMS (NameObj 0) []
     frame_base_world).2 = Ok stored_table.
Proof.
  apply (make_df_deprecated_frame sample_MESSAGE_ITEMS sample_MACRO_ITEMS
           0 stored_table frame_base_world).
  - reflexivity.
  - apply (bool_decide_unpack _). vm_compute. exact I.
  - reflexivity.
  - apply (bool_decide_unpack _). vm_compute. exact I.
  - discriminate.
Defined.
